(** * create_issues.py: issue and label creation through the GitHub CLI

    A shallow embedding of [create_issues.py].  The script drives an external
    command-line tool through [subprocess.run], reads one line from standard
    input and prints to standard output.  Those three effects are recorded, in
    program order, in a trace of events; the external tool and the user are an
    arbitrary [World].  The two module-level tables live in a store of globals
    that the procedures read, as the Python code reads its module namespace. *)

From Stdlib Require Import List String Ascii ZArith Bool Arith Lia DecimalString.
Import ListNotations.

Open Scope string_scope.
Open Scope list_scope.
Open Scope Z_scope.

(** ** Text

    [str] values are modelled as strings of 8-bit characters.  [lower] and
    [strip] act on the ASCII range as [str.lower] and [str.strip] do there;
    characters above 127 are left as they are. *)

Module Text.

Definition nl : string := String (ascii_of_nat 10) EmptyString.
Definition dq : string := String (ascii_of_nat 34) EmptyString.

(** An f-string is the concatenation of its literal and formatted parts. *)
Definition fstr (parts : list string) : string := String.concat "" parts.

(** [sep.join(parts)] *)
Definition join (sep : string) (parts : list string) : string :=
  String.concat sep parts.

(** [s * n] *)
Fixpoint repeat_str (s : string) (n : nat) : string :=
  match n with
  | O => ""
  | S k => (s ++ repeat_str s k)%string
  end.

(** [str(i)] for a non-negative integer *)
Definition str_of_nat (i : nat) : string :=
  NilEmpty.string_of_uint (Nat.to_uint i).

Definition lower_ascii (c : ascii) : ascii :=
  let n := nat_of_ascii c in
  if (Nat.leb 65 n && Nat.leb n 90)%bool then ascii_of_nat (n + 32) else c.

(** [s.lower()] *)
Fixpoint lower (s : string) : string :=
  match s with
  | EmptyString => EmptyString
  | String c r => String (lower_ascii c) (lower r)
  end.

(** Whitespace of [str.isspace] in the ASCII range: tab, line feed,
    vertical tab, form feed, carriage return, the four separators
    0x1c..0x1f and the space. *)
Definition is_space (c : ascii) : bool :=
  let n := nat_of_ascii c in
  ((Nat.leb 9 n && Nat.leb n 13) || (Nat.leb 28 n && Nat.leb n 32))%bool.

Fixpoint lstrip (s : string) : string :=
  match s with
  | EmptyString => EmptyString
  | String c r => if is_space c then lstrip r else s
  end.

Fixpoint rstrip (s : string) : string :=
  match s with
  | EmptyString => EmptyString
  | String c r =>
      match rstrip r with
      | EmptyString => if is_space c then EmptyString else String c EmptyString
      | r' => String c r'
      end
  end.

(** [s.strip()] *)
Definition strip (s : string) : string := rstrip (lstrip s).

(** [needle in hay] *)
Fixpoint contains (needle hay : string) : bool :=
  (String.prefix needle hay ||
   match hay with
   | EmptyString => false
   | String _ r => contains needle r
   end)%bool.

(** [x in xs] for a list of strings *)
Definition mem (x : string) (xs : list string) : bool :=
  existsb (String.eqb x) xs.

End Text.
Import Text.

(** ** Data model *)

(** An entry of [REQUIRED_LABELS]: a dict with the keys name, description
    and color. *)
Record Label := {
  name : string;
  description : string;
  color : string
}.

(** An entry of [TASK_GROUPS]: a dict with the keys title, body and labels. *)
Record TaskGroup := {
  title : string;
  body : string;
  labels : list string
}.

Definition REQUIRED_LABELS : list Label :=
  [
    {| name := "backend"; description := "Backend development tasks"; color := "0052cc" |};
    {| name := "frontend"; description := "Frontend development tasks"; color := "5319e7" |};
    {| name := "foundation"; description := "Core foundation tasks"; color := "d93f0b" |};
    {| name := "authentication"; description := "Authentication and authorization"; color := "fbca04" |};
    {| name := "articles"; description := "Article management features"; color := "0e8a16" |};
    {| name := "comments"; description := "Comments system"; color := "006b75" |};
    {| name := "tags"; description := "Tags and tagging system"; color := "7057ff" |};
    {| name := "setup"; description := "Project setup and configuration"; color := "e99695" |};
    {| name := "navigation"; description := "Navigation and routing"; color := "bfd4f2" |};
    {| name := "feeds"; description := "Article feeds and listing"; color := "c2e0c6" |};
    {| name := "editor"; description := "Article editor functionality"; color := "f9d0c4" |};
    {| name := "profiles"; description := "User profiles and settings"; color := "fef2c0" |};
    {| name := "ui"; description := "User interface and design"; color := "d4c5f9" |};
    {| name := "responsive"; description := "Responsive design and mobile"; color := "c5def5" |};
    {| name := "devops"; description := "DevOps and deployment"; color := "0052cc" |};
    {| name := "docker"; description := "Docker containerization"; color := "006b75" |};
    {| name := "testing"; description := "Testing and quality assurance"; color := "d93f0b" |};
    {| name := "quality"; description := "Code quality and standards"; color := "fbca04" |};
    {| name := "security"; description := "Security and validation"; color := "b60205" |};
    {| name := "error-handling"; description := "Error handling and user feedback"; color := "d93f0b" |};
    {| name := "performance"; description := "Performance optimization"; color := "0e8a16" |};
    {| name := "documentation"; description := "Documentation and guides"; color := "5319e7" |};
    {| name := "deployment"; description := "Production deployment"; color := "0052cc" |};
    {| name := "high-priority"; description := "High priority tasks"; color := "b60205" |};
    {| name := "medium-priority"; description := "Medium priority tasks"; color := "fbca04" |}
  ].

Definition TASK_GROUPS : list TaskGroup :=
  [
    {| title := "Phase 1.1: Project Setup & Go Backend Foundation";
       body := "## Tasks:
1. Set up project structure and development environment
2. Initialize Go backend with basic server and SQLite database  
3. Create database schema and migrations for all tables
4. Implement JWT authentication middleware and user models

## Acceptance Criteria:
- [x] Root project structure created as per PRD section 13.1
- [x] Git repository initialized with proper .gitignore
- [x] Go module set up with HTTP server and SQLite connection
- [x] Database schema implemented with all required tables
- [x] JWT authentication middleware working
- [x] User models with validation created

## Priority: High
## Phase: Backend Foundation";
       labels := ["backend"; "foundation"; "high-priority"] |};
    {| title := "Phase 1.2: User Authentication & Profile System";
       body := "## Tasks:
5. Build user authentication endpoints (register, login, get/update user)
6. Implement user profile endpoints (get profile, follow/unfollow)

## Endpoints to implement:
- `POST /api/users/login` - User login
- `POST /api/users` - User registration
- `GET /api/user` - Get current user (auth required)
- `PUT /api/user` - Update user (auth required)
- `GET /api/profiles/:username` - Get user profile
- `POST /api/profiles/:username/follow` - Follow user (auth required)
- `DELETE /api/profiles/:username/follow` - Unfollow user (auth required)

## Acceptance Criteria:
- [x] All authentication endpoints working with proper validation
- [x] Password hashing with bcrypt implemented
- [x] JWT token handling in responses
- [x] Follow/unfollow functionality working
- [x] Proper error handling and validation

## Priority: High
## Phase: Backend Foundation";
       labels := ["backend"; "authentication"; "high-priority"] |};
    {| title := "Phase 1.3: Articles System - CRUD & Feed";
       body := "## Tasks:
7. Create article CRUD endpoints with slug generation
8. Build article feed endpoints (global feed, personal feed)
9. Implement article favoriting system

## Endpoints to implement:
- `GET /api/articles/:slug` - Get single article
- `POST /api/articles` - Create article (auth required)
- `PUT /api/articles/:slug` - Update article (auth required)  
- `DELETE /api/articles/:slug` - Delete article (auth required)
- `GET /api/articles` - List articles (with filtering & pagination)
- `GET /api/articles/feed` - Get user feed (auth required)
- `POST /api/articles/:slug/favorite` - Favorite article (auth required)
- `DELETE /api/articles/:slug/favorite` - Unfavorite article (auth required)

## Acceptance Criteria:
- [x] Article CRUD operations working
- [x] Slug generation utility implemented
- [x] Article feeds with filtering by tag, author, favorited status
- [x] Pagination support
- [x] Favoriting system with accurate counts

## Priority: High  
## Phase: Backend Foundation";
       labels := ["backend"; "articles"; "high-priority"] |};
    {| title := "Phase 1.4: Comments & Tags System";
       body := "## Tasks:
10. Create comments system for articles
11. Build tags system and popular tags endpoint
12. Add CORS middleware and API error handling

## Endpoints to implement:
- `GET /api/articles/:slug/comments` - Get article comments
- `POST /api/articles/:slug/comments` - Add comment (auth required)
- `DELETE /api/articles/:slug/comments/:id` - Delete comment (auth required)
- `GET /api/tags` - Get all tags

## Acceptance Criteria:
- [x] Comments CRUD functionality working
- [x] Tag creation during article creation
- [x] Popular tags functionality
- [x] CORS middleware configured for frontend
- [x] Consistent error response format
- [x] Request logging middleware
- [x] Input validation and sanitization

## Priority: High
## Phase: Backend Foundation";
       labels := ["backend"; "comments"; "tags"; "high-priority"] |};
    {| title := "Phase 2.1: Frontend Setup & Architecture";
       body := "## Tasks:
13. Initialize React frontend with Vite, TypeScript, and Tailwind CSS
14. Set up Shadcn/UI components and design system
15. Configure TanStack Router for hash-based routing
16. Set up TanStack Query for API state management  
17. Create API client with authentication handling

## Acceptance Criteria:
- [x] Vite + React + TypeScript project created
- [x] Tailwind CSS configured with custom settings
- [x] Shadcn/UI initialized with base components
- [x] TanStack Router with hash-based routing configured
- [x] All route definitions created (#/, #/login, #/register, etc.)
- [x] TanStack Query set up with error handling
- [x] API client with JWT token management
- [x] Request/response interceptors working

## Priority: High
## Phase: Frontend Foundation";
       labels := ["frontend"; "setup"; "high-priority"] |};
    {| title := "Phase 2.2: Authentication Pages & Navigation";
       body := "## Tasks:
18. Build authentication pages (login, register)
19. Implement header navigation with conditional rendering

## Pages to create:
- Login page with email/password validation
- Registration page with username/email/password  
- Header component with logo and navigation
- User dropdown menu for authenticated users

## Acceptance Criteria:
- [x] Login and registration forms with validation
- [x] Form error handling and display
- [x] Navigation between login/register pages
- [x] Header with conditional rendering based on auth status
- [x] User dropdown with logout functionality
- [x] Proper form validation and user feedback

## Priority: High
## Phase: Frontend Foundation";
       labels := ["frontend"; "authentication"; "navigation"; "high-priority"] |};
    {| title := "Phase 2.3: Home Page & Article Feeds";
       body := "## Tasks:
20. Create home page with article feeds and popular tags
21. Build article detail page with comments

## Features to implement:
- Article feed tabs (Your Feed, Global Feed, Tag Feed)
- Article preview cards with metadata
- Popular tags sidebar
- Article detail view with markdown rendering
- Comments section with add/delete functionality
- Follow/favorite buttons
- Author-only edit/delete controls

## Acceptance Criteria:
- [x] Home page with working feed tabs
- [x] Article preview cards showing metadata
- [x] Popular tags sidebar with filtering
- [x] Article detail page with markdown rendering
- [x] Comments system working
- [x] Follow and favorite buttons functional
- [x] Proper author permissions for edit/delete

## Priority: High
## Phase: Frontend Features";
       labels := ["frontend"; "articles"; "feeds"; "high-priority"] |};
    {| title := "Phase 2.4: Article Editor & User Profiles";
       body := ("## Tasks:
22. Implement article editor with markdown support
23. Create user profile pages with article tabs
24. Build user settings page for profile updates

## Features to implement:
- Article creation form (title, description, body, tags)
- Markdown editor or textarea
- Tag input with autocomplete
- User profile display with bio and image
- Article tabs: " ++ dq ++ "My Articles" ++ dq ++ " and " ++ dq ++ "Favorited Articles" ++ dq ++ "
- Settings form for profile updates
- Follow button for other users

## Acceptance Criteria:
- [x] Article editor with all required fields
- [x] Tag input with autocomplete functionality
- [x] Publish/update article functionality
- [x] Edit mode for existing articles
- [x] User profile pages with bio and image
- [x] Article tabs working correctly
- [x] Settings page with form validation
- [x] Follow functionality on profiles

## Priority: Medium
## Phase: Frontend Features")%string;
       labels := ["frontend"; "editor"; "profiles"; "medium-priority"] |};
    {| title := "Phase 2.5: Pagination & UI Polish";
       body := "## Tasks:
25. Add pagination components and logic
26. Implement responsive design and mobile optimization

## Features to implement:
- Reusable pagination component
- Page navigation for article feeds
- Loading states for page transitions
- Mobile-first responsive design
- Tablet and desktop breakpoints
- Touch-friendly interface elements

## Acceptance Criteria:
- [x] Pagination working on all feed pages
- [x] Loading states during pagination
- [x] Responsive design across all breakpoints
- [x] Mobile-optimized touch interfaces
- [x] Proper loading states and transitions
- [x] UI polish and smooth interactions

## Priority: Medium
## Phase: Frontend Features";
       labels := ["frontend"; "ui"; "responsive"; "medium-priority"] |};
    {| title := "Phase 3.1: Development Environment & Docker";
       body := "## Tasks:
27. Create Docker configuration for development and production
28. Set up testing infrastructure (backend and frontend)

## Deliverables:
- Dockerfile.dev for backend development
- Dockerfile.dev for frontend development
- docker-compose.yml for full environment
- Production Docker configurations
- Go testing framework setup
- Vitest for frontend unit tests
- React Testing Library for component tests
- Test databases and fixtures

## Acceptance Criteria:
- [x] Docker development environment working
- [x] Docker production builds optimized
- [x] Testing frameworks configured
- [x] Test databases and fixtures set up
- [x] All containers working together
- [x] Easy development workflow

## Priority: Medium
## Phase: Polish & Production";
       labels := ["devops"; "docker"; "testing"; "medium-priority"] |};
    {| title := "Phase 3.2: Comprehensive Testing";
       body := "## Tasks:
29. Write comprehensive tests for API endpoints
30. Add frontend component and integration tests

## Testing scope:
- Unit tests for all handler functions
- Integration tests for database operations  
- API endpoint tests with httptest
- Authentication and authorization tests
- Component tests for all major components
- Integration tests for user flows
- API integration tests with MSW
- E2E tests with Playwright for critical paths

## Acceptance Criteria:
- [x] >80% code coverage for backend
- [x] All API endpoints tested
- [x] Database operations tested
- [x] Frontend components tested
- [x] User flows tested end-to-end
- [x] CI/CD pipeline passing all tests

## Priority: Medium
## Phase: Polish & Production";
       labels := ["testing"; "quality"; "medium-priority"] |};
    {| title := "Phase 3.3: Error Handling & Security";
       body := "## Tasks:
31. Implement error handling and user feedback
32. Add input validation and security measures

## Features:
- Toast notifications for user actions
- Error boundaries for React
- Network error handling
- Loading states and skeleton screens
- Comprehensive input validation
- XSS protection for user content
- CSRF protection
- Rate limiting for API endpoints

## Acceptance Criteria:
- [x] User-friendly error messages
- [x] Proper error boundaries
- [x] Graceful network error handling
- [x] Security measures implemented
- [x] Input validation on all forms
- [x] Rate limiting configured
- [x] XSS and CSRF protection active

## Priority: High
## Phase: Polish & Production";
       labels := ["security"; "error-handling"; "high-priority"] |};
    {| title := "Phase 3.4: Performance & Production Ready";
       body := "## Tasks:
33. Optimize performance and add caching strategies
34. Create production deployment configuration
35. Write documentation and setup instructions

## Optimizations:
- Code splitting for frontend
- Image optimization and lazy loading
- API response caching
- Database query optimization
- Production environment variables
- Health check endpoints
- Monitoring and logging setup
- Comprehensive README
- API documentation
- Deployment guides

## Acceptance Criteria:
- [x] Performance optimizations implemented
- [x] Production deployment ready
- [x] Monitoring and logging configured
- [x] Complete documentation written
- [x] Deployment guides created
- [x] API documentation complete

## Priority: Medium
## Phase: Polish & Production";
       labels := ["performance"; "documentation"; "deployment"; "medium-priority"] |}
  ].

(** The labels an issue refers to are all declared. *)
Definition label_names (ls : list Label) : list string := map name ls.

Definition labels_declared (ls : list Label) (tg : TaskGroup) : bool :=
  forallb (fun l => mem l (label_names ls)) (labels tg).

Fixpoint distinct (xs : list string) : bool :=
  match xs with
  | [] => true
  | x :: r => (negb (mem x r) && distinct r)%bool
  end.

(** ** Effects *)

(** One call of [subprocess.run(argv, capture_output=True, text=True,
    timeout=..., encoding='utf-8', errors='replace')].  No call site passes
    [shell], so every call runs with the default [shell=False]. *)
Record Invocation := {
  argv : list string;
  timeout : Z;
  shell : bool
}.

(** The exceptions [subprocess.run] raises derive from [Exception]:
    [TimeoutExpired] when the time budget runs out, and any other one
    (a missing or non-executable file, ...).  Each carries its [str]. *)
Inductive Exn :=
| TimeoutExpired (msg : string)
| OtherException (msg : string).

Definition exn_str (e : Exn) : string :=
  match e with
  | TimeoutExpired msg => msg
  | OtherException msg => msg
  end.

(** What a call of [subprocess.run] comes back with: a completed process
    with its return code and captured streams, or an exception. *)
Inductive Outcome :=
| Completed (returncode : Z) (stdout stderr : string)
| Raised (e : Exn).

(** What the process does to its surroundings, in program order. *)
Inductive Event :=
| EPrint (line : string)                        (* print(line) *)
| ERun (inv : Invocation) (o : Outcome)         (* subprocess.run(...) *)
| EInput (prompt : string) (answer : option string).  (* input(prompt) *)

(** The surroundings: the external tool answers an invocation, possibly
    depending on all that happened before; the user types one line at the
    prompt, or standard input is at its end ([None]). *)
Record World := {
  tool : list Event -> Invocation -> Outcome;
  stdin : option string
}.

(** The module namespace: the two tables are global names of the module,
    looked up whenever a procedure mentions them. *)
Record Globals := {
  var_REQUIRED_LABELS : list Label;
  var_TASK_GROUPS : list TaskGroup
}.

Record State := {
  globals : Globals;
  trace : list Event
}.

(** How a computation ends: with a value, with [SystemExit(code)] raised by
    [exit(code)], or with an exception nothing catches. *)
Inductive Result (A : Type) :=
| Ret (a : A)
| Exit (code : Z)
| Uncaught (exn : string).
Arguments Ret {A} a.
Arguments Exit {A} code.
Arguments Uncaught {A} exn.

(** The exit status of the interpreter. *)
Definition exit_code {A} (r : Result A) : Z :=
  match r with
  | Ret _ => 0
  | Exit code => code
  | Uncaught _ => 1
  end.

Definition M (A : Type) : Type := State -> Result A * State.

Definition ret {A} (a : A) : M A := fun s => (Ret a, s).

Definition bind {A B} (m : M A) (f : A -> M B) : M B :=
  fun s =>
    match m s with
    | (Ret a, s') => f a s'
    | (Exit code, s') => (Exit code, s')
    | (Uncaught exn, s') => (Uncaught exn, s')
    end.

Notation "x <- m ;; k" := (bind m (fun x => k))
  (at level 61, m at next level, right associativity).
Notation "m ;;; k" := (bind m (fun _ => k))
  (at level 61, right associativity).

Definition record (s : State) (evs : list Event) : State :=
  {| globals := globals s; trace := trace s ++ evs |}.

Definition print (line : string) : M unit :=
  fun s => (Ret tt, record s [EPrint line]).

Definition exit {A} (code : Z) : M A :=
  fun s => (Exit code, s).

Definition get_REQUIRED_LABELS : M (list Label) :=
  fun s => (Ret (var_REQUIRED_LABELS (globals s)), s).

Definition get_TASK_GROUPS : M (list TaskGroup) :=
  fun s => (Ret (var_TASK_GROUPS (globals s)), s).

(** [for x in xs: body(x)] *)
Fixpoint for_each {A} (xs : list A) (body : A -> M unit) : M unit :=
  match xs with
  | [] => ret tt
  | x :: r => body x ;;; for_each r body
  end.

(** [for i, x in enumerate(xs, i0): body(i, x)] *)
Fixpoint for_enumerate {A} (xs : list A) (i : nat) (body : nat -> A -> M unit)
  : M unit :=
  match xs with
  | [] => ret tt
  | x :: r => body i x ;;; for_enumerate r (S i) body
  end.

(** Truthiness of [gh_path]: [None] and the empty string are false. *)
Definition truthy (p : option string) : bool :=
  match p with
  | Some (String _ _) => true
  | _ => false
  end.

Definition path_of (p : option string) : string :=
  match p with
  | Some gh => gh
  | None => ""
  end.

Section Program.

Variable w : World.

Definition subprocess_run (cmd : list string) (budget : Z) : M Outcome :=
  fun s =>
    let inv := {| argv := cmd; timeout := budget; shell := false |} in
    let o := tool w (trace s) inv in
    (Ret o, record s [ERun inv o]).

(** [input(prompt)]; at the end of standard input it raises [EOFError],
    which the script does not catch. *)
Definition input (prompt : string) : M string :=
  fun s =>
    match stdin w with
    | Some answer => (Ret answer, record s [EInput prompt (Some answer)])
    | None => (Uncaught "EOFError", record s [EInput prompt None])
    end.

Definition common_paths : list string :=
  [ "gh";
    "/c/Program Files/GitHub CLI/gh.exe";
    "C:\Program Files\GitHub CLI\gh.exe";
    "/usr/local/bin/gh";
    "/opt/homebrew/bin/gh" ].

(** The loop of [find_gh_executable]: [return path] leaves it with
    [Some path]; the bare [except] moves on to the next candidate. *)
Fixpoint probe (paths : list string) : M (option string) :=
  match paths with
  | [] => ret None
  | path :: rest =>
      result <- subprocess_run [path; "--version"] 5 ;;
      match result with
      | Completed returncode _ _ =>
          if returncode =? 0 then ret (Some path) else probe rest
      | Raised _ => probe rest
      end
  end.

Definition find_gh_executable : M (option string) := probe common_paths.

Definition create_label (gh_path : string) (label : Label) : M unit :=
  print (fstr ["Creating label '"; name label; "'..."]) ;;;
  let cmd :=
    [ gh_path;
      "label"; "create";
      name label;
      "--description"; description label;
      "--color"; color label;
      "--force" ] in
  result <- subprocess_run cmd 15 ;;
  match result with
  | Completed returncode _ stderr =>
      if returncode =? 0 then
        print (fstr ["[SUCCESS] Label '"; name label; "' created/updated"])
      else if contains "already exists" (lower stderr) then
        print (fstr ["[INFO] Label '"; name label; "' already exists"])
      else
        print (fstr ["[WARNING] Failed to create label '"; name label;
                     "': "; strip stderr])
  | Raised (TimeoutExpired _) =>
      print (fstr ["[ERROR] Timeout creating label: "; name label])
  | Raised (OtherException e) =>
      print (fstr ["[ERROR] Error creating label '"; name label; "': "; e])
  end.

Definition create_github_labels (gh_path : string) : M unit :=
  print (nl ++ "Creating GitHub labels...")%string ;;;
  required <- get_REQUIRED_LABELS ;;
  for_each required (create_label gh_path).

Definition print_manual_issues : M unit :=
  print (nl ++ repeat_str "=" 80)%string ;;;
  print "MANUAL ISSUE CREATION" ;;;
  print (repeat_str "=" 80) ;;;
  print ("First, create these labels in your GitHub repository:" ++ nl)%string ;;;
  required <- get_REQUIRED_LABELS ;;
  for_each required (fun label =>
    print (fstr ["- "; name label; ": "; description label;
                 " (color: #"; color label; ")"])) ;;;
  print (nl ++ "Then copy and paste these issues into GitHub Issues manually:"
            ++ nl)%string ;;;
  groups <- get_TASK_GROUPS ;;
  for_enumerate groups 1 (fun i task_group =>
    print (fstr ["--- Issue #"; str_of_nat i; ": "; title task_group; " ---"]) ;;;
    print (fstr ["Labels: "; join ", " (labels task_group)]) ;;;
    print (fstr ["Body:"; nl; body task_group]) ;;;
    print (nl ++ repeat_str "-" 80 ++ nl)%string).

(** The command of one issue: the fixed head, extended by the loop over the
    labels of the record. *)
Definition issue_cmd (gh_path : string) (task_group : TaskGroup) : list string :=
  fold_left (fun cmd label => cmd ++ ["--label"; label])
    (labels task_group)
    [ gh_path;
      "issue"; "create";
      "--title"; title task_group;
      "--body"; body task_group ].

Definition create_issue (gh_path : string) (i : nat) (task_group : TaskGroup)
  : M unit :=
  groups <- get_TASK_GROUPS ;;
  print (fstr [nl; str_of_nat i; "/"; str_of_nat (List.length groups);
               ": Creating issue '"; title task_group; "'"]) ;;;
  let cmd := issue_cmd gh_path task_group in
  result <- subprocess_run cmd 30 ;;
  match result with
  | Completed returncode stdout stderr =>
      if returncode =? 0 then
        print (fstr ["[SUCCESS] Issue created successfully: "; strip stdout])
      else
        print (fstr ["[ERROR] Failed to create issue: "; strip stderr])
  | Raised (TimeoutExpired _) =>
      print (fstr ["[ERROR] Timeout creating issue: "; title task_group])
  | Raised (OtherException e) =>
      print (fstr ["[ERROR] Error creating issue: "; e])
  end.

Definition create_github_issues : M unit :=
  gh_path <- find_gh_executable ;;
  if negb (truthy gh_path) then
    print "[ERROR] GitHub CLI not found. Please install it from: https://cli.github.com/" ;;;
    print "Or manually create issues using the task groups below:" ;;;
    print_manual_issues
  else
    print (fstr ["Found GitHub CLI at: "; path_of gh_path]) ;;;
    create_github_labels (path_of gh_path) ;;;
    print (nl ++ "Creating GitHub issues for RealWorld implementation tasks...")%string ;;;
    groups <- get_TASK_GROUPS ;;
    for_enumerate groups 1 (create_issue (path_of gh_path)).

(** The authentication check of the main block.  [exit(1)] raises
    [SystemExit], which [except Exception] does not catch. *)
Definition check_auth (gh_path : string) : M unit :=
  result <- subprocess_run [gh_path; "auth"; "status"] 10 ;;
  match result with
  | Completed returncode _ _ =>
      if negb (returncode =? 0) then
        print "[ERROR] GitHub CLI not authenticated. Please run: gh auth login" ;;;
        print "Authentication is required to create issues." ;;;
        exit 1
      else
        print "[SUCCESS] GitHub CLI authenticated"
  | Raised e =>
      print (fstr ["[ERROR] Error checking GitHub CLI auth status: "; exn_str e]) ;;;
      print "Please ensure GitHub CLI is installed and authenticated" ;;;
      exit 1
  end.

(** The block under [if __name__ == "__main__"]. *)
Definition main : M unit :=
  print "GitHub Issues Creation Script" ;;;
  print (repeat_str "=" 50) ;;;
  print "This script will create GitHub issues based on the RealWorld implementation tasks." ;;;
  print "Make sure you're authenticated with GitHub CLI first: gh auth login" ;;;
  print "" ;;;
  gh_path <- find_gh_executable ;;
  (if truthy gh_path then
     check_auth (path_of gh_path)
   else
     print "[ERROR] GitHub CLI not found." ;;;
     print "Install from: https://cli.github.com/" ;;;
     print "Or create issues manually using the output below." ;;;
     print_manual_issues ;;;
     exit 1) ;;;
  response <- input (nl ++ "Proceed with creating issues? (y/N): ")%string ;;
  if mem (lower response) ["y"; "yes"] then
    create_github_issues ;;;
    print (nl ++ "Done! Check your repository for the created issues.")%string
  else
    print "Cancelled.".

End Program.

(** The state in which the interpreter starts the main block: the tables as
    the module defines them, nothing done yet. *)
Definition initial : State :=
  {| globals := {| var_REQUIRED_LABELS := REQUIRED_LABELS;
                   var_TASK_GROUPS := TASK_GROUPS |};
     trace := [] |}.

(** A run of the script in a world: exit status and trace. *)
Definition run (w : World) : Result unit * State := main w initial.

(** ** Reading a trace *)

(** The calls of the external tool with their outcomes, the lines printed
    and the answers read, each in the order of the trace. *)
Definition runs (tr : list Event) : list (Invocation * Outcome) :=
  flat_map (fun e => match e with ERun inv o => [(inv, o)] | _ => [] end) tr.

Definition invocations (tr : list Event) : list Invocation :=
  map fst (runs tr).

Definition printed (tr : list Event) : list string :=
  flat_map (fun e => match e with EPrint line => [line] | _ => [] end) tr.

Definition prompts (tr : list Event) : list string :=
  flat_map (fun e => match e with EInput prompt _ => [prompt] | _ => [] end) tr.

(** What was typed at the prompt. *)
Definition answers (tr : list Event) : list (option string) :=
  flat_map (fun e => match e with EInput _ a => [a] | _ => [] end) tr.

(** The four command shapes of the script, told apart by their arguments. *)
Definition is_probe (inv : Invocation) : bool :=
  match argv inv with
  | [_; a] => String.eqb a "--version"
  | _ => false
  end.

Definition is_auth_check (inv : Invocation) : bool :=
  match argv inv with
  | [_; a; b] => (String.eqb a "auth" && String.eqb b "status")%bool
  | _ => false
  end.

Definition is_label_create (inv : Invocation) : bool :=
  match argv inv with
  | _ :: a :: b :: _ => (String.eqb a "label" && String.eqb b "create")%bool
  | _ => false
  end.

Definition is_issue_create (inv : Invocation) : bool :=
  match argv inv with
  | _ :: a :: b :: _ => (String.eqb a "issue" && String.eqb b "create")%bool
  | _ => false
  end.

(** The calls that change the repository. *)
Definition is_mutating (inv : Invocation) : bool :=
  (is_label_create inv || is_issue_create inv)%bool.

Definition mutating_calls (tr : list Event) : list Invocation :=
  filter is_mutating (invocations tr).

(** A completed process with return code zero. *)
Definition succeeded (o : Outcome) : bool :=
  match o with
  | Completed returncode _ _ => returncode =? 0
  | Raised _ => false
  end.

(** The outcomes recorded for the authentication check. *)
Definition auth_outcomes (tr : list Event) : list Outcome :=
  map snd (filter (fun r => is_auth_check (fst r)) (runs tr)).

(** The probes that exited with status zero. *)
Definition successful_probes (tr : list Event) : list (Invocation * Outcome) :=
  filter (fun r => (is_probe (fst r) && succeeded (snd r))%bool) (runs tr).

(** No mutating call is made before the prompt has been answered. *)
Fixpoint prompt_comes_first (tr : list Event) : bool :=
  match tr with
  | [] => true
  | EInput _ _ :: _ => true
  | ERun inv _ :: r => (negb (is_mutating inv) && prompt_comes_first r)%bool
  | EPrint _ :: r => prompt_comes_first r
  end.

(** ** What each step leaves in the trace *)

Definition banner_lines : list string :=
  [ "GitHub Issues Creation Script";
    repeat_str "=" 50;
    "This script will create GitHub issues based on the RealWorld implementation tasks.";
    "Make sure you're authenticated with GitHub CLI first: gh auth login";
    "" ].

Definition banner : list Event := map EPrint banner_lines.

Definition probe_inv (path : string) : Invocation :=
  {| argv := [path; "--version"]; timeout := 5; shell := false |}.

Definition probed (po : string * Outcome) : Event :=
  ERun (probe_inv (fst po)) (snd po).

Definition auth_inv (gh : string) : Invocation :=
  {| argv := [gh; "auth"; "status"]; timeout := 10; shell := false |}.

Definition label_inv (gh : string) (l : Label) : Invocation :=
  {| argv := [gh; "label"; "create"; name l;
              "--description"; description l;
              "--color"; color l; "--force"];
     timeout := 15; shell := false |}.

Definition issue_inv (gh : string) (tg : TaskGroup) : Invocation :=
  {| argv := [gh; "issue"; "create"; "--title"; title tg; "--body"; body tg]
             ++ flat_map (fun l => ["--label"; l]) (labels tg);
     timeout := 30; shell := false |}.

(** The status line of one label, by outcome. *)
Definition label_report (l : Label) (o : Outcome) : string :=
  match o with
  | Completed returncode _ stderr =>
      if returncode =? 0 then
        fstr ["[SUCCESS] Label '"; name l; "' created/updated"]
      else if contains "already exists" (lower stderr) then
        fstr ["[INFO] Label '"; name l; "' already exists"]
      else
        fstr ["[WARNING] Failed to create label '"; name l; "': "; strip stderr]
  | Raised (TimeoutExpired _) =>
      fstr ["[ERROR] Timeout creating label: "; name l]
  | Raised (OtherException e) =>
      fstr ["[ERROR] Error creating label '"; name l; "': "; e]
  end.

Definition label_step (gh : string) (lo : Label * Outcome) : list Event :=
  let (l, o) := lo in
  [ EPrint (fstr ["Creating label '"; name l; "'..."]);
    ERun (label_inv gh l) o;
    EPrint (label_report l o) ].

(** The status line of one issue, by outcome. *)
Definition issue_report (tg : TaskGroup) (o : Outcome) : string :=
  match o with
  | Completed returncode stdout stderr =>
      if returncode =? 0 then
        fstr ["[SUCCESS] Issue created successfully: "; strip stdout]
      else
        fstr ["[ERROR] Failed to create issue: "; strip stderr]
  | Raised (TimeoutExpired _) =>
      fstr ["[ERROR] Timeout creating issue: "; title tg]
  | Raised (OtherException e) =>
      fstr ["[ERROR] Error creating issue: "; e]
  end.

Definition issue_header (total i : nat) (tg : TaskGroup) : string :=
  fstr [nl; str_of_nat i; "/"; str_of_nat total;
        ": Creating issue '"; title tg; "'"].

Definition issue_step (gh : string) (total : nat)
    (ito : nat * TaskGroup * Outcome) : list Event :=
  let '(i, tg, o) := ito in
  [ EPrint (issue_header total i tg);
    ERun (issue_inv gh tg) o;
    EPrint (issue_report tg o) ].

(** The manual fallback: every label record, then every issue record with
    its number, title, labels and body. *)
Definition manual_label_line (l : Label) : string :=
  fstr ["- "; name l; ": "; description l; " (color: #"; color l; ")"].

Definition manual_issue_lines (itg : nat * TaskGroup) : list string :=
  let (i, tg) := itg in
  [ fstr ["--- Issue #"; str_of_nat i; ": "; title tg; " ---"];
    fstr ["Labels: "; join ", " (labels tg)];
    fstr ["Body:"; nl; body tg];
    (nl ++ repeat_str "-" 80 ++ nl)%string ].

Definition manual_lines (ls : list Label) (tgs : list TaskGroup) : list string :=
  [ (nl ++ repeat_str "=" 80)%string;
    "MANUAL ISSUE CREATION";
    repeat_str "=" 80;
    ("First, create these labels in your GitHub repository:" ++ nl)%string ]
  ++ map manual_label_line ls
  ++ [ (nl ++ "Then copy and paste these issues into GitHub Issues manually:"
           ++ nl)%string ]
  ++ flat_map manual_issue_lines (combine (seq 1 (List.length tgs)) tgs).

Definition manual_events (ls : list Label) (tgs : list TaskGroup) : list Event :=
  map EPrint (manual_lines ls tgs).

(** What the authentication check prints after the call. *)
Definition auth_lines (o : Outcome) : list string :=
  match o with
  | Completed returncode _ _ =>
      if negb (returncode =? 0) then
        [ "[ERROR] GitHub CLI not authenticated. Please run: gh auth login";
          "Authentication is required to create issues." ]
      else
        [ "[SUCCESS] GitHub CLI authenticated" ]
  | Raised e =>
      [ fstr ["[ERROR] Error checking GitHub CLI auth status: "; exn_str e];
        "Please ensure GitHub CLI is installed and authenticated" ]
  end.

Definition auth_report (o : Outcome) : list Event := map EPrint (auth_lines o).

Definition confirmation_prompt : string :=
  (nl ++ "Proceed with creating issues? (y/N): ")%string.

Definition done_line : string :=
  (nl ++ "Done! Check your repository for the created issues.")%string.

(** The locator tried the candidates before [p] in their order, each of
    them failed, and the probe of [p] exited with status zero. *)
Definition probes_hit (paths : list string) (p : string) (evs : list Event) : Prop :=
  exists before after fails out err,
    paths = before ++ p :: after /\
    List.length fails = List.length before /\
    Forall (fun o => succeeded o = false) fails /\
    evs = map probed (combine before fails) ++ [probed (p, Completed 0 out err)].

(** The locator tried every candidate in order and each of them failed. *)
Definition probes_miss (paths : list string) (evs : list Event) : Prop :=
  exists fails,
    List.length fails = List.length paths /\
    Forall (fun o => succeeded o = false) fails /\
    evs = map probed (combine paths fails).

(** The part of a trace after the first prompt. *)
Fixpoint after_prompt (tr : list Event) : list Event :=
  match tr with
  | [] => []
  | EInput _ _ :: r => r
  | _ :: r => after_prompt r
  end.

(** The test of the main block on the answer. *)
Definition accepts (answer : string) : bool := mem (lower answer) ["y"; "yes"].

(** ** The six ways a run can go

    Locate the tool; without it print the manual fallback and leave with
    status 1.  Check the authentication; on failure leave with status 1.
    Prompt; on anything but a yes print the cancellation.  Otherwise locate
    the tool again and either fall back to the manual text or create the
    labels and the issues. *)

Definition missing_lines : list string :=
  [ "[ERROR] GitHub CLI not found.";
    "Install from: https://cli.github.com/";
    "Or create issues manually using the output below." ].

Definition missing_notice : list Event := map EPrint missing_lines.

Definition vanished_lines : list string :=
  [ "[ERROR] GitHub CLI not found. Please install it from: https://cli.github.com/";
    "Or manually create issues using the task groups below:" ].

Definition vanished_notice : list Event := map EPrint vanished_lines.

Definition found_line (gh : string) : string :=
  fstr ["Found GitHub CLI at: "; gh].

Definition labels_part (gh : string) (ls : list Label) (os : list Outcome)
  : list Event :=
  EPrint (nl ++ "Creating GitHub labels...")%string
  :: flat_map (label_step gh) (combine ls os).

Definition issues_part (gh : string) (tgs : list TaskGroup) (os : list Outcome)
  : list Event :=
  EPrint (nl ++ "Creating GitHub issues for RealWorld implementation tasks...")%string
  :: flat_map (issue_step gh (List.length tgs))
       (combine (combine (seq 1 (List.length tgs)) tgs) os).

Definition up_to_auth (ps : list Event) (gh : string) (o : Outcome) : list Event :=
  banner ++ ps ++ ERun (auth_inv gh) o :: auth_report o.

Inductive run_shape (w : World) : Result unit -> list Event -> Prop :=
| shape_tool_missing ps :
    probes_miss common_paths ps ->
    run_shape w (Exit 1)
      (banner ++ ps ++ missing_notice
       ++ manual_events REQUIRED_LABELS TASK_GROUPS)
| shape_auth_failed gh ps o :
    probes_hit common_paths gh ps ->
    succeeded o = false ->
    run_shape w (Exit 1) (up_to_auth ps gh o)
| shape_input_closed gh ps o :
    probes_hit common_paths gh ps ->
    succeeded o = true ->
    stdin w = None ->
    run_shape w (Uncaught "EOFError")
      (up_to_auth ps gh o ++ [EInput confirmation_prompt None])
| shape_declined gh ps o answer :
    probes_hit common_paths gh ps ->
    succeeded o = true ->
    stdin w = Some answer ->
    accepts answer = false ->
    run_shape w (Ret tt)
      (up_to_auth ps gh o
       ++ [EInput confirmation_prompt (Some answer); EPrint "Cancelled."])
| shape_tool_vanished gh ps o answer ps2 :
    probes_hit common_paths gh ps ->
    succeeded o = true ->
    stdin w = Some answer ->
    accepts answer = true ->
    probes_miss common_paths ps2 ->
    run_shape w (Ret tt)
      (up_to_auth ps gh o
       ++ EInput confirmation_prompt (Some answer)
       :: ps2 ++ vanished_notice
       ++ manual_events REQUIRED_LABELS TASK_GROUPS
       ++ [EPrint done_line])
| shape_created gh ps o answer gh2 ps2 los ios :
    probes_hit common_paths gh ps ->
    succeeded o = true ->
    stdin w = Some answer ->
    accepts answer = true ->
    probes_hit common_paths gh2 ps2 ->
    List.length los = List.length REQUIRED_LABELS ->
    List.length ios = List.length TASK_GROUPS ->
    run_shape w (Ret tt)
      (up_to_auth ps gh o
       ++ EInput confirmation_prompt (Some answer)
       :: ps2 ++ EPrint (found_line gh2)
       :: labels_part gh2 REQUIRED_LABELS los
       ++ issues_part gh2 TASK_GROUPS ios
       ++ [EPrint done_line]).

(** ** The three buckets of the label loop, in the words of the design *)

Inductive Bucket := Success | AlreadyExists | OtherFailure.

(** [hay] contains [needle] when the case of letters is ignored. *)
Definition mentions (needle hay : string) : Prop :=
  exists pre mid post,
    hay = (pre ++ mid ++ post)%string /\ lower mid = lower needle.

Inductive label_bucket : Outcome -> Bucket -> Prop :=
| bucket_success out err :
    label_bucket (Completed 0 out err) Success
| bucket_exists rc out err :
    rc <> 0 -> mentions "already exists" err ->
    label_bucket (Completed rc out err) AlreadyExists
| bucket_failed rc out err :
    rc <> 0 -> ~ mentions "already exists" err ->
    label_bucket (Completed rc out err) OtherFailure
| bucket_raised e :
    label_bucket (Raised e) OtherFailure.

(** The tag that opens the status line of a bucket; the failures that come
    from an exception are tagged as errors, the others as warnings. *)
Definition bucket_tags (b : Bucket) : list string :=
  match b with
  | Success => ["[SUCCESS]"]
  | AlreadyExists => ["[INFO]"]
  | OtherFailure => ["[WARNING]"; "[ERROR]"]
  end.

Definition tagged (tags : list string) (line : string) : bool :=
  existsb (fun t => String.prefix t line) tags.

(** ** Sample worlds *)

(** The tool is installed and authenticated; the user answers [n]. *)
Definition w_decline : World :=
  {| tool := fun _ _ => Completed 0 "" ""; stdin := Some "n" |}.

(** No candidate path runs. *)
Definition w_missing : World :=
  {| tool := fun _ _ => Raised (OtherException "[Errno 2] No such file or directory: 'gh'");
     stdin := Some "y" |}.

(** The tool is installed but not logged in. *)
Definition w_logged_out : World :=
  {| tool := fun _ inv =>
       if is_auth_check inv
       then Completed 1 "" "You are not logged into any GitHub hosts."
       else Completed 0 "gh version 2.40.0" "";
     stdin := Some "y" |}.

(** The tool is found through its Homebrew path and does everything asked. *)
Definition w_created : World :=
  {| tool := fun _ inv =>
       match argv inv with
       | p :: _ =>
           if String.eqb p "/usr/local/bin/gh"
           then Completed 0 ("https://github.com/o/r/issues/1" ++ nl)%string ""
           else Raised (OtherException "not found")
       | [] => Raised (OtherException "empty")
       end;
     stdin := Some "Yes" |}.

(** The tool answers until the prompt has been shown and is gone after. *)
Definition w_vanished : World :=
  {| tool := fun tr _ =>
       match prompts tr with
       | [] => Completed 0 "" ""
       | _ => Raised (OtherException "not found")
       end;
     stdin := Some "y" |}.

(** Labels exist already, the second issue times out, the third is refused. *)
Definition w_mixed : World :=
  {| tool := fun tr inv =>
       if is_label_create inv then
         Completed 1 "" "label with name 'x' Already Exists; use --force"
       else if is_issue_create inv then
         match List.length (filter is_issue_create (invocations tr)) with
         | 1%nat => Raised (TimeoutExpired "Command timed out after 30 seconds")
         | 2%nat => Completed 1 "" ("HTTP 403: forbidden" ++ nl)%string
         | _ => Completed 0 "https://github.com/o/r/issues/7" ""
         end
       else Completed 0 "" "";
     stdin := Some "y" |}.

(** The runs that the parts of a trace consist of. *)
Definition probe_run (po : string * Outcome) : Invocation * Outcome :=
  (probe_inv (fst po), snd po).

Definition label_run (gh : string) (lo : Label * Outcome) : Invocation * Outcome :=
  (label_inv gh (fst lo), snd lo).

Definition issue_run (gh : string) (ito : nat * TaskGroup * Outcome)
  : Invocation * Outcome :=
  (issue_inv gh (snd (fst ito)), snd ito).

(** ** Invariants

    A computation keeps a property of states when it ends in a state that
    has the property whenever it starts in one. *)

Definition keeps {A} (P : State -> Prop) (m : M A) : Prop :=
  forall s, P s -> P (snd (m s)).

(** A trace is genuine for a world when every outcome and every answer in
    it is the one the world gives at that point. *)
Inductive genuine (w : World) : list Event -> Prop :=
| genuine_nil : genuine w []
| genuine_print tr line :
    genuine w tr -> genuine w (tr ++ [EPrint line])
| genuine_run tr inv :
    genuine w tr -> genuine w (tr ++ [ERun inv (tool w tr inv)])
| genuine_input tr prompt :
    genuine w tr -> genuine w (tr ++ [EInput prompt (stdin w)]).

(** What a locator call leaves behind, found or not. *)
Record probes_only (ps : list Event) : Prop := {
  probes_answers : answers ps = [];
  probes_printed : printed ps = [];
  probes_mutating : mutating_calls ps = [];
  probes_auth : auth_outcomes ps = [];
  probes_shell : Forall (fun inv => shell inv = false) (invocations ps);
  probes_kind : forallb is_probe (invocations ps) = true
}.

(** The three kinds of command the script issues. *)
Definition known_command (inv : Invocation) : bool :=
  (is_probe inv || is_auth_check inv || is_mutating inv)%bool.

(** * Properties *)

(** ** The monad and the loops *)

Lemma record_nil (s : State) : record s [] = s.
Proof.
  destruct s as [g tr]. unfold record. simpl. now rewrite app_nil_r.
Qed.

Lemma record_record (s : State) (a b : list Event) :
  record (record s a) b = record s (a ++ b).
Proof.
  unfold record. simpl. now rewrite app_assoc.
Qed.

Lemma bind_ret {A B} (m : M A) (f : A -> M B) (s s' : State) (a : A) :
  m s = (Ret a, s') -> bind m f s = f a s'.
Proof.
  intros H. unfold bind. now rewrite H.
Qed.

Lemma bind_exit {A B} (m : M A) (f : A -> M B) (s s' : State) (code : Z) :
  m s = (Exit code, s') -> bind m f s = (Exit code, s').
Proof.
  intros H. unfold bind. now rewrite H.
Qed.

Lemma bind_uncaught {A B} (m : M A) (f : A -> M B) (s s' : State) (exn : string) :
  m s = (Uncaught exn, s') -> bind m f s = (Uncaught exn, s').
Proof.
  intros H. unfold bind. now rewrite H.
Qed.

Lemma print_then {B} (line : string) (k : M B) (s : State) :
  (print line ;;; k) s = k (record s [EPrint line]).
Proof. reflexivity. Qed.

Lemma for_each_print {A} (line : A -> string) (xs : list A) (s : State) :
  for_each xs (fun x => print (line x)) s
  = (Ret tt, record s (map (fun x => EPrint (line x)) xs)).
Proof.
  revert s. induction xs as [|x r IH]; intros s; simpl.
  - unfold ret. now rewrite record_nil.
  - rewrite print_then, IH, record_record. reflexivity.
Qed.

(** A loop whose body always comes back leaves the steps of its elements in
    the trace, one after the other, and comes back. *)
Lemma for_each_steps {A} (body : A -> M unit) (step : A * Outcome -> list Event) :
  (forall x s, exists o, body x s = (Ret tt, record s (step (x, o)))) ->
  forall xs s, exists os,
    List.length os = List.length xs /\
    for_each xs body s = (Ret tt, record s (flat_map step (combine xs os))).
Proof.
  intros Hbody xs. induction xs as [|x r IH]; intros s.
  - exists []. split; [reflexivity|]. simpl. unfold ret. now rewrite record_nil.
  - destruct (Hbody x s) as [o Ho].
    destruct (IH (record s (step (x, o)))) as [os [Hlen Hrest]].
    exists (o :: os). split; [simpl; now rewrite Hlen|].
    simpl. rewrite (bind_ret _ _ _ _ _ Ho), Hrest, record_record. reflexivity.
Qed.

Lemma for_enumerate_steps {A} (g : Globals) (body : nat -> A -> M unit)
    (step : nat * A * Outcome -> list Event) :
  (forall i x s, globals s = g ->
     exists o, body i x s = (Ret tt, record s (step (i, x, o)))) ->
  forall xs i s, globals s = g ->
    exists os,
      List.length os = List.length xs /\
      for_enumerate xs i body s
      = (Ret tt, record s (flat_map step
                             (combine (combine (seq i (List.length xs)) xs) os))).
Proof.
  intros Hbody xs. induction xs as [|x r IH]; intros i s Hg.
  - exists []. split; [reflexivity|]. simpl. unfold ret. now rewrite record_nil.
  - destruct (Hbody i x s Hg) as [o Ho].
    destruct (IH (S i) (record s (step (i, x, o))) Hg) as [os [Hlen Hrest]].
    exists (o :: os). split; [simpl; now rewrite Hlen|].
    simpl. rewrite (bind_ret _ _ _ _ _ Ho), Hrest, record_record. reflexivity.
Qed.

Lemma for_enumerate_print {A} (lines : nat * A -> list string)
    (body : nat -> A -> M unit) :
  (forall i x s, body i x s = (Ret tt, record s (map EPrint (lines (i, x))))) ->
  forall xs i s,
    for_enumerate xs i body s
    = (Ret tt, record s (map EPrint
                           (flat_map lines (combine (seq i (List.length xs)) xs)))).
Proof.
  intros Hbody xs. induction xs as [|x r IH]; intros i s; simpl.
  - unfold ret. now rewrite record_nil.
  - rewrite (bind_ret _ _ _ _ _ (Hbody i x s)), IH, record_record, map_app.
    reflexivity.
Qed.

(** ** The procedures, one by one *)

Section Procedures.

Variable w : World.

Lemma create_label_spec (gh : string) (l : Label) (s : State) :
  create_label w gh l s
  = (Ret tt,
     record s (label_step gh
       (l, tool w (trace s ++ [EPrint (fstr ["Creating label '"; name l; "'..."])])
             (label_inv gh l)))).
Proof.
  unfold create_label. rewrite print_then.
  set (s1 := record s _).
  unfold bind, subprocess_run. fold (label_inv gh l).
  change (trace s ++ _) with (trace s1).
  set (o := tool w (trace s1) (label_inv gh l)).
  unfold label_step, label_report.
  destruct o as [rc out err|[msg|msg]];
    [destruct (rc =? 0); [|destruct (contains _ _)]| |];
    unfold print, s1; rewrite !record_record; reflexivity.
Qed.

Lemma create_label_step (gh : string) (l : Label) (s : State) :
  exists o, create_label w gh l s = (Ret tt, record s (label_step gh (l, o))).
Proof.
  eexists. apply create_label_spec.
Qed.

Lemma create_github_labels_steps (gh : string) (s : State) :
  exists os,
    List.length os = List.length (var_REQUIRED_LABELS (globals s)) /\
    create_github_labels w gh s
    = (Ret tt, record s (EPrint (nl ++ "Creating GitHub labels...")%string
                         :: flat_map (label_step gh)
                              (combine (var_REQUIRED_LABELS (globals s)) os))).
Proof.
  unfold create_github_labels. rewrite print_then.
  set (s1 := record s _).
  destruct (for_each_steps (create_label w gh) (label_step gh)
              (create_label_step gh)
              (var_REQUIRED_LABELS (globals s)) s1) as [os [Hlen Hloop]].
  exists os. split; [exact Hlen|].
  unfold bind at 1. unfold get_REQUIRED_LABELS at 1.
  change (globals s1) with (globals s).
  rewrite Hloop. unfold s1. rewrite record_record. reflexivity.
Qed.

Lemma extend_labels (ls : list string) (base : list string) :
  fold_left (fun cmd label => cmd ++ ["--label"; label]) ls base
  = base ++ flat_map (fun l => ["--label"; l]) ls.
Proof.
  revert base. induction ls as [|l r IH]; intros base; simpl.
  - now rewrite app_nil_r.
  - rewrite IH, <- app_assoc. reflexivity.
Qed.

Lemma issue_cmd_argv (gh : string) (tg : TaskGroup) :
  issue_cmd gh tg = argv (issue_inv gh tg).
Proof.
  unfold issue_cmd. rewrite extend_labels. reflexivity.
Qed.

Lemma create_issue_spec (gh : string) (i : nat) (tg : TaskGroup) (s : State) :
  let total := List.length (var_TASK_GROUPS (globals s)) in
  create_issue w gh i tg s
  = (Ret tt,
     record s (issue_step gh total
       (i, tg, tool w (trace s ++ [EPrint (issue_header total i tg)])
                 (issue_inv gh tg)))).
Proof.
  intros total. unfold create_issue.
  unfold bind at 1. unfold get_TASK_GROUPS at 1. fold total.
  fold (issue_header total i tg). rewrite print_then.
  set (s1 := record s _).
  unfold bind, subprocess_run. rewrite issue_cmd_argv.
  change {| argv := argv (issue_inv gh tg); timeout := 30; shell := false |}
    with (issue_inv gh tg).
  change (trace s ++ _) with (trace s1).
  set (o := tool w (trace s1) (issue_inv gh tg)).
  unfold issue_step, issue_report.
  destruct o as [rc out err|[msg|msg]]; [destruct (rc =? 0)| |];
    unfold print, s1; rewrite !record_record; reflexivity.
Qed.

Lemma print_manual_issues_spec (s : State) :
  print_manual_issues s
  = (Ret tt, record s (manual_events (var_REQUIRED_LABELS (globals s))
                                     (var_TASK_GROUPS (globals s)))).
Proof.
  unfold print_manual_issues. rewrite !print_then.
  unfold bind at 1. unfold get_REQUIRED_LABELS at 1.
  unfold bind at 1. fold manual_label_line.
  rewrite (for_each_print manual_label_line).
  rewrite print_then.
  unfold bind at 1. unfold get_TASK_GROUPS at 1.
  rewrite (for_enumerate_print manual_issue_lines)
    by (intros; rewrite !print_then; unfold print;
        rewrite !record_record; reflexivity).
  rewrite !record_record. simpl globals.
  unfold manual_events, manual_lines.
  rewrite !map_app, (map_map manual_label_line EPrint). reflexivity.
Qed.

Lemma probe_spec (paths : list string) (s : State) :
  (exists p evs,
      probes_hit paths p evs /\
      probe w paths s = (Ret (Some p), record s evs))
  \/ (exists evs,
      probes_miss paths evs /\
      probe w paths s = (Ret None, record s evs)).
Proof.
  revert s. induction paths as [|path rest IH]; intros s.
  - right. exists []. split.
    + exists []. repeat split; constructor.
    + simpl. unfold ret. now rewrite record_nil.
  - set (o := tool w (trace s) (probe_inv path)).
    set (s1 := record s [ERun (probe_inv path) o]).
    assert (Hstep : probe w (path :: rest) s
                    = if succeeded o then (Ret (Some path), s1)
                      else probe w rest s1).
    { simpl. unfold bind, subprocess_run. fold (probe_inv path). fold o. fold s1.
      destruct o as [rc out err|e]; [simpl; destruct (rc =? 0)|]; reflexivity. }
    rewrite Hstep. clear Hstep.
    assert (Hmiss : succeeded o = false ->
              (exists p evs, probes_hit (path :: rest) p evs /\
                 probe w rest s1 = (Ret (Some p), record s evs))
              \/ (exists evs, probes_miss (path :: rest) evs /\
                 probe w rest s1 = (Ret None, record s evs))).
    { intros Hfail. destruct (IH s1) as [[p [evs [Hhit Heq]]]|[evs [Hm Heq]]].
      - left. exists p, (probed (path, o) :: evs). split.
        + destruct Hhit as (before & after & fails & out & err & Hp & Hl & Hf & He).
          exists (path :: before), after, (o :: fails), out, err.
          repeat split.
          * simpl. now rewrite Hp.
          * simpl. now rewrite Hl.
          * now constructor.
          * simpl. now rewrite He.
        + rewrite Heq. unfold s1. now rewrite record_record.
      - right. exists (probed (path, o) :: evs). split.
        + destruct Hm as (fails & Hl & Hf & He).
          exists (o :: fails). repeat split.
          * simpl. now rewrite Hl.
          * now constructor.
          * simpl. now rewrite He.
        + rewrite Heq. unfold s1. now rewrite record_record. }
    destruct (succeeded o) eqn:Hok; [|now apply Hmiss].
    left. unfold s1. destruct o as [rc out err|e]; [|discriminate].
    simpl in Hok. apply Z.eqb_eq in Hok. subst rc.
    exists path, [probed (path, Completed 0 out err)]. split; [|reflexivity].
    exists [], rest, [], out, err. repeat split. constructor.
Qed.

Lemma check_auth_spec (gh : string) (s : State) :
  let o := tool w (trace s) (auth_inv gh) in
  check_auth w gh s
  = ((if succeeded o then Ret tt else Exit 1),
     record s (ERun (auth_inv gh) o :: auth_report o)).
Proof.
  intros o. unfold check_auth, bind, subprocess_run. fold (auth_inv gh). fold o.
  unfold auth_report, auth_lines, succeeded.
  destruct o as [rc out err|e]; [destruct (rc =? 0)|];
    simpl; unfold print, exit; rewrite ?record_record; reflexivity.
Qed.

End Procedures.

(** ** The flow of a run *)

Lemma probes_hit_in (paths : list string) (p : string) (evs : list Event) :
  probes_hit paths p evs -> In p paths.
Proof.
  intros (before & after & fails & out & err & Hp & _). rewrite Hp.
  apply in_or_app. right. now left.
Qed.

Lemma common_paths_truthy (p : string) :
  In p common_paths -> truthy (Some p) = true.
Proof.
  unfold common_paths. simpl. intros H.
  repeat (destruct H as [H|H]; [subst p; reflexivity|]). contradiction.
Qed.

Section Flow.

Variable w : World.

Lemma create_github_issues_shape (s : State) :
  let L := var_REQUIRED_LABELS (globals s) in
  let T := var_TASK_GROUPS (globals s) in
  (exists ps,
      probes_miss common_paths ps /\
      create_github_issues w s
      = (Ret tt, record s (ps ++ vanished_notice ++ manual_events L T)))
  \/ (exists gh ps los ios,
      probes_hit common_paths gh ps /\
      List.length los = List.length L /\
      List.length ios = List.length T /\
      create_github_issues w s
      = (Ret tt, record s (ps ++ EPrint (found_line gh)
                              :: labels_part gh L los ++ issues_part gh T ios))).
Proof.
  intros L T. unfold create_github_issues, find_gh_executable.
  destruct (probe_spec w common_paths s) as [[p [ps [Hhit Heq]]]|[ps [Hmiss Heq]]].
  - right. rewrite (bind_ret _ _ _ _ _ Heq).
    rewrite (common_paths_truthy p (probes_hit_in _ _ _ Hhit)).
    change (negb true) with false. cbv iota.
    change (path_of (Some p)) with p. fold (found_line p).
    rewrite print_then. set (s1 := record _ [EPrint (found_line p)]).
    destruct (create_github_labels_steps w p s1) as [los [Hlos Hlabels]].
    rewrite (bind_ret _ _ _ _ _ Hlabels). rewrite print_then.
    set (s2 := record _ [EPrint _]).
    unfold bind at 1. unfold get_TASK_GROUPS at 1.
    change (globals s2) with (globals s). fold T.
    destruct (for_enumerate_steps (globals s) (create_issue w p)
                (issue_step p (List.length T))) with (xs := T) (i := 1%nat) (s := s2)
      as [ios [Hios Hissues]].
    { intros i x s0 Hg. eexists. rewrite create_issue_spec, Hg. reflexivity. }
    { reflexivity. }
    exists p, ps, los, ios. repeat split; try assumption.
    rewrite Hissues. unfold s2, s1. rewrite !record_record.
    unfold labels_part, issues_part. simpl globals. fold L.
    rewrite <- ?app_assoc. reflexivity.
  - left. exists ps. split; [exact Hmiss|].
    rewrite (bind_ret _ _ _ _ _ Heq).
    change (negb (truthy None)) with true. cbv iota.
    rewrite !print_then, print_manual_issues_spec, !record_record.
    simpl globals. reflexivity.
Qed.

Lemma run_shape_eq (r : Result unit) (tr tr' : list Event) :
  run_shape w r tr -> tr = tr' -> run_shape w r tr'.
Proof. intros H E. now rewrite <- E. Qed.

Ltac same_trace :=
  unfold up_to_auth; rewrite ?record_record;
  cbn [trace globals record initial var_REQUIRED_LABELS var_TASK_GROUPS];
  repeat first [rewrite <- app_assoc | progress cbn [app]]; reflexivity.

Theorem run_shape_total :
  run_shape w (fst (run w)) (trace (snd (run w))).
Proof.
  remember (run w) as X eqn:HX.
  unfold run, main in HX. rewrite !print_then, !record_record in HX.
  cbn [app] in HX. fold banner in HX. set (s0 := record initial banner) in HX.
  unfold find_gh_executable in HX.
  destruct (probe_spec w common_paths s0) as [[gh [ps [Hhit Heq]]]|[ps [Hmiss Heq]]];
    rewrite (bind_ret _ _ _ _ _ Heq) in HX.
  - rewrite (common_paths_truthy gh (probes_hit_in _ _ _ Hhit)) in HX.
    change (path_of (Some gh)) with gh in HX.
    pose proof (check_auth_spec w gh (record s0 ps)) as Hauth.
    cbv zeta in Hauth.
    set (o := tool w (trace (record s0 ps)) (auth_inv gh)) in Hauth.
    destruct (succeeded o) eqn:Hok.
    + rewrite (bind_ret _ _ _ _ _ Hauth) in HX.
      unfold bind at 1 in HX. unfold input at 1 in HX.
      destruct (stdin w) as [answer|] eqn:Hin.
      * fold (accepts answer) in HX. destruct (accepts answer) eqn:Hacc.
        -- set (s1 := record _ [EInput _ _]) in HX.
           destruct (create_github_issues_shape s1)
             as [(ps2 & Hmiss2 & Hrun)|(gh2 & ps2 & los & ios & Hhit2 & Hlos & Hios & Hrun)];
             rewrite (bind_ret _ _ _ _ _ Hrun) in HX; unfold print in HX;
             rewrite HX; cbn [fst snd].
           ++ eapply run_shape_eq;
                [exact (shape_tool_vanished w gh ps o answer ps2 Hhit Hok Hin Hacc Hmiss2)|].
              unfold s1, s0. same_trace.
           ++ eapply run_shape_eq;
                [exact (shape_created w gh ps o answer gh2 ps2 los ios
                          Hhit Hok Hin Hacc Hhit2 Hlos Hios)|].
              unfold s1, s0. same_trace.
        -- unfold print in HX. rewrite HX. cbn [fst snd].
           eapply run_shape_eq;
             [exact (shape_declined w gh ps o answer Hhit Hok Hin Hacc)|].
           unfold s0. same_trace.
      * rewrite HX. cbn [fst snd].
        eapply run_shape_eq; [exact (shape_input_closed w gh ps o Hhit Hok Hin)|].
        unfold s0. same_trace.
    + rewrite (bind_exit _ _ _ _ _ Hauth) in HX. rewrite HX. cbn [fst snd].
      eapply run_shape_eq; [exact (shape_auth_failed w gh ps o Hhit Hok)|].
      unfold s0. same_trace.
  - change (truthy None) with false in HX. cbv iota in HX.
    erewrite bind_exit in HX.
    2:{ rewrite !print_then, (bind_ret _ _ _ _ _ (print_manual_issues_spec _)).
        reflexivity. }
    rewrite HX. cbn [fst snd].
    eapply run_shape_eq; [exact (shape_tool_missing w ps Hmiss)|].
    unfold s0, missing_notice. same_trace.
Qed.
End Flow.

(** ** Reading the parts of a trace *)

Lemma map_combine_fst {A B C} (f : A -> C) (xs : list A) (ys : list B) :
  List.length ys = List.length xs ->
  map (fun p => f (fst p)) (combine xs ys) = map f xs.
Proof.
  revert ys. induction xs as [|x r IH]; intros [|y ys] H; simpl in *;
    try discriminate; [reflexivity|].
  f_equal. apply IH. now injection H.
Qed.

Lemma filter_map_none {A B} (p : B -> bool) (g : A -> B) (xs : list A) :
  (forall x, p (g x) = false) -> filter p (map g xs) = [].
Proof.
  intros H. induction xs as [|x r IH]; simpl; [reflexivity|].
  now rewrite H.
Qed.

Lemma filter_map_all {A B} (p : B -> bool) (g : A -> B) (xs : list A) :
  (forall x, p (g x) = true) -> filter p (map g xs) = map g xs.
Proof.
  intros H. induction xs as [|x r IH]; simpl; [reflexivity|].
  now rewrite H, IH.
Qed.

Lemma runs_app (a b : list Event) : runs (a ++ b) = runs a ++ runs b.
Proof. apply flat_map_app. Qed.

Lemma printed_app (a b : list Event) : printed (a ++ b) = printed a ++ printed b.
Proof. apply flat_map_app. Qed.

Lemma answers_app (a b : list Event) : answers (a ++ b) = answers a ++ answers b.
Proof. apply flat_map_app. Qed.

Lemma runs_prints (lines : list string) : runs (map EPrint lines) = [].
Proof. induction lines; simpl; auto. Qed.

Lemma printed_prints (lines : list string) : printed (map EPrint lines) = lines.
Proof. induction lines; simpl; [reflexivity|]. now f_equal. Qed.

Lemma answers_prints (lines : list string) : answers (map EPrint lines) = [].
Proof. induction lines; simpl; auto. Qed.

Lemma runs_probed (l : list (string * Outcome)) :
  runs (map probed l) = map probe_run l.
Proof. induction l; simpl; [reflexivity|]. now f_equal. Qed.

Lemma printed_probed (l : list (string * Outcome)) : printed (map probed l) = [].
Proof. induction l; simpl; auto. Qed.

Lemma answers_probed (l : list (string * Outcome)) : answers (map probed l) = [].
Proof. induction l; simpl; auto. Qed.

Lemma runs_labels_part (gh : string) (ls : list Label) (os : list Outcome) :
  runs (labels_part gh ls os) = map (label_run gh) (combine ls os).
Proof.
  unfold labels_part. change (runs (?e :: ?r)) with (runs r).
  induction (combine ls os) as [|[l o] r IH]; simpl; [reflexivity|].
  f_equal. exact IH.
Qed.

Lemma answers_labels_part (gh : string) (ls : list Label) (os : list Outcome) :
  answers (labels_part gh ls os) = [].
Proof.
  unfold labels_part. change (answers (?e :: ?r)) with (answers r).
  induction (combine ls os) as [|[l o] r IH]; simpl; auto.
Qed.

Lemma runs_issue_steps (gh : string) (total : nat)
    (l : list (nat * TaskGroup * Outcome)) :
  runs (flat_map (issue_step gh total) l) = map (issue_run gh) l.
Proof.
  induction l as [|[[i tg] o] r IH]; simpl; [reflexivity|].
  f_equal. exact IH.
Qed.

Lemma runs_issues_part (gh : string) (tgs : list TaskGroup) (os : list Outcome) :
  runs (issues_part gh tgs os)
  = map (issue_run gh) (combine (combine (seq 1 (List.length tgs)) tgs) os).
Proof.
  unfold issues_part. change (runs (?e :: ?r)) with (runs r).
  apply runs_issue_steps.
Qed.

Lemma answers_issues_part (gh : string) (tgs : list TaskGroup) (os : list Outcome) :
  answers (issues_part gh tgs os) = [].
Proof.
  unfold issues_part. change (answers (?e :: ?r)) with (answers r).
  induction (combine _ os) as [|[[i tg] o] r IH]; simpl; auto.
Qed.

Lemma runs_cons_run inv o tr : runs (ERun inv o :: tr) = (inv, o) :: runs tr.
Proof. reflexivity. Qed.
Lemma runs_cons_print line tr : runs (EPrint line :: tr) = runs tr.
Proof. reflexivity. Qed.
Lemma runs_cons_input p a tr : runs (EInput p a :: tr) = runs tr.
Proof. reflexivity. Qed.
Lemma answers_cons_run inv o tr : answers (ERun inv o :: tr) = answers tr.
Proof. reflexivity. Qed.
Lemma answers_cons_print line tr : answers (EPrint line :: tr) = answers tr.
Proof. reflexivity. Qed.
Lemma answers_cons_input p a tr : answers (EInput p a :: tr) = a :: answers tr.
Proof. reflexivity. Qed.
Lemma printed_cons_run inv o tr : printed (ERun inv o :: tr) = printed tr.
Proof. reflexivity. Qed.
Lemma printed_cons_print line tr : printed (EPrint line :: tr) = line :: printed tr.
Proof. reflexivity. Qed.
Lemma printed_cons_input p a tr : printed (EInput p a :: tr) = printed tr.
Proof. reflexivity. Qed.

Lemma issue_invocations (gh : string) (tgs : list TaskGroup) (os : list Outcome) :
  List.length os = List.length tgs ->
  map fst (map (issue_run gh) (combine (combine (seq 1 (List.length tgs)) tgs) os))
  = map (issue_inv gh) tgs.
Proof.
  intros H. rewrite map_map. unfold issue_run. cbn [fst].
  rewrite (map_combine_fst (fun it => issue_inv gh (snd it))).
  - clear H. generalize 1%nat.
    induction tgs as [|tg r IH]; intros i; simpl; [reflexivity|].
    f_equal. apply IH.
  - rewrite length_combine, length_seq, Nat.min_id. exact H.
Qed.

Lemma label_invocations (gh : string) (ls : list Label) (os : list Outcome) :
  List.length os = List.length ls ->
  map fst (map (label_run gh) (combine ls os)) = map (label_inv gh) ls.
Proof.
  intros H. rewrite map_map. unfold label_run. cbn [fst].
  now apply map_combine_fst.
Qed.

(** ** What every procedure keeps *)

Section Keeps.

Variable w : World.
Variable P : State -> Prop.
Hypothesis P_print : forall s line, P s -> P (record s [EPrint line]).
Hypothesis P_run :
  forall s inv, P s -> P (record s [ERun inv (tool w (trace s) inv)]).
Hypothesis P_input :
  forall s prompt, P s -> P (record s [EInput prompt (stdin w)]).

Lemma keeps_ret {A} (a : A) : keeps P (ret a).
Proof. intros s H. exact H. Qed.

Lemma keeps_exit {A} (code : Z) : keeps P (@exit A code).
Proof. intros s H. exact H. Qed.

Lemma keeps_bind {A B} (m : M A) (f : A -> M B) :
  keeps P m -> (forall a, keeps P (f a)) -> keeps P (bind m f).
Proof.
  intros Hm Hf s H. unfold bind. specialize (Hm s H).
  destruct (m s) as [[a|code|exn] s']; simpl in *; try exact Hm.
  now apply Hf.
Qed.

Lemma keeps_print (line : string) : keeps P (print line).
Proof. intros s H. now apply P_print. Qed.

Lemma keeps_subprocess_run (cmd : list string) (budget : Z) :
  keeps P (subprocess_run w cmd budget).
Proof. intros s H. now apply P_run. Qed.

Lemma keeps_input (prompt : string) : keeps P (input w prompt).
Proof.
  intros s H. unfold input. specialize (P_input s prompt H).
  destruct (stdin w); exact P_input.
Qed.

Lemma keeps_get_labels : keeps P get_REQUIRED_LABELS.
Proof. intros s H. exact H. Qed.

Lemma keeps_get_groups : keeps P get_TASK_GROUPS.
Proof. intros s H. exact H. Qed.

Lemma keeps_for_each {A} (xs : list A) (body : A -> M unit) :
  (forall x, keeps P (body x)) -> keeps P (for_each xs body).
Proof.
  intros Hbody. induction xs as [|x r IH]; simpl.
  - apply keeps_ret.
  - apply keeps_bind; auto.
Qed.

Lemma keeps_for_enumerate {A} (xs : list A) (i : nat) (body : nat -> A -> M unit) :
  (forall i x, keeps P (body i x)) -> keeps P (for_enumerate xs i body).
Proof.
  intros Hbody. revert i. induction xs as [|x r IH]; intros i; simpl.
  - apply keeps_ret.
  - apply keeps_bind; auto.
Qed.

Ltac keep :=
  repeat first
    [ apply keeps_bind; [|intros ?]
    | apply keeps_print
    | apply keeps_ret
    | apply keeps_exit
    | apply keeps_subprocess_run
    | apply keeps_input
    | apply keeps_get_labels
    | apply keeps_get_groups
    | apply keeps_for_each; intros ?
    | apply keeps_for_enumerate; intros ? ?
    | match goal with
      | |- keeps _ (match ?x with _ => _ end) => destruct x
      end ].

Lemma keeps_probe (paths : list string) : keeps P (probe w paths).
Proof. induction paths as [|p r IH]; simpl; keep; exact IH. Qed.

Lemma keeps_find_gh_executable : keeps P (find_gh_executable w).
Proof. apply keeps_probe. Qed.

Lemma keeps_create_label (gh : string) (l : Label) : keeps P (create_label w gh l).
Proof. unfold create_label. keep. Qed.

Lemma keeps_create_github_labels (gh : string) : keeps P (create_github_labels w gh).
Proof. unfold create_github_labels. keep. Qed.

Lemma keeps_print_manual_issues : keeps P print_manual_issues.
Proof. unfold print_manual_issues. keep. Qed.

Lemma keeps_create_issue (gh : string) (i : nat) (tg : TaskGroup) :
  keeps P (create_issue w gh i tg).
Proof. unfold create_issue. keep. Qed.

Lemma keeps_create_github_issues : keeps P (create_github_issues w).
Proof.
  unfold create_github_issues. keep; apply keeps_find_gh_executable.
Qed.

Lemma keeps_check_auth (gh : string) : keeps P (check_auth w gh).
Proof. unfold check_auth. keep. Qed.

Lemma keeps_main : keeps P (main w).
Proof.
  unfold main. keep; first [apply keeps_find_gh_executable
                           |apply keeps_create_github_issues].
Qed.

End Keeps.

(** Every outcome and answer a run records is the one its world gave. *)
Lemma main_genuine (w : World) (s : State) :
  genuine w (trace s) -> genuine w (trace (snd (main w s))).
Proof.
  apply (keeps_main w (fun s => genuine w (trace s))); intros; simpl;
    now constructor.
Qed.

Lemma find_gh_executable_genuine (w : World) (s : State) :
  genuine w (trace s) -> genuine w (trace (snd (find_gh_executable w s))).
Proof.
  apply (keeps_find_gh_executable w (fun s => genuine w (trace s))); intros; simpl;
    now constructor.
Qed.

(** No procedure assigns to a global name. *)
Lemma main_globals (w : World) (s : State) :
  globals (snd (main w s)) = globals s.
Proof.
  apply (keeps_main w (fun s' => globals s' = globals s)); intros; simpl; auto.
Qed.

(** ** The static tables *)

Lemma mem_In (x : string) (xs : list string) : mem x xs = true <-> In x xs.
Proof.
  unfold mem. rewrite existsb_exists. split.
  - intros [y [Hy Heq]]. apply String.eqb_eq in Heq. now subst.
  - intros H. exists x. split; [exact H|apply String.eqb_refl].
Qed.

Lemma distinct_NoDup (xs : list string) : distinct xs = true -> NoDup xs.
Proof.
  induction xs as [|x r IH]; simpl; intros H; constructor;
    apply andb_true_iff in H; destruct H as [Hx Hr].
  - intros Hin. apply mem_In in Hin. rewrite Hin in Hx. discriminate.
  - now apply IH.
Qed.

(** C6. Every label name an issue record of [TASK_GROUPS] refers to is the
    name of a record of [REQUIRED_LABELS]. *)
Theorem issue_labels_declared (tg : TaskGroup) (l : string) :
  In tg TASK_GROUPS -> In l (labels tg) ->
  exists r, In r REQUIRED_LABELS /\ name r = l.
Proof.
  intros Htg Hl.
  assert (Hall : forallb (labels_declared REQUIRED_LABELS) TASK_GROUPS = true)
    by (vm_compute; reflexivity).
  rewrite forallb_forall in Hall. specialize (Hall tg Htg).
  unfold labels_declared in Hall. rewrite forallb_forall in Hall.
  specialize (Hall l Hl). apply mem_In in Hall.
  unfold label_names in Hall. apply in_map_iff in Hall.
  destruct Hall as [r [Hname Hin]]. now exists r.
Qed.

Lemma issue_labels_declared_witness :
  exists r, In r REQUIRED_LABELS /\ name r = "high-priority".
Proof.
  apply (issue_labels_declared (nth 0 TASK_GROUPS {| title := ""; body := ""; labels := [] |})
           "high-priority").
  - simpl. left. reflexivity.
  - simpl. right. right. left. reflexivity.
Defined.

(** C7. No label name appears twice in [REQUIRED_LABELS], and no run of the
    script changes the tables: the globals after [main] are the globals
    before, so every run ends with the table as the module defines it. *)
Theorem label_names_unique_and_fixed :
  NoDup (map name REQUIRED_LABELS)
  /\ (forall w s, globals (snd (main w s)) = globals s)
  /\ (forall w, var_REQUIRED_LABELS (globals (snd (run w))) = REQUIRED_LABELS).
Proof.
  split; [|split].
  - apply distinct_NoDup. vm_compute. reflexivity.
  - apply main_globals.
  - intros w. unfold run. now rewrite main_globals.
Qed.

(** ** The executable locator *)

(** C8. [find_gh_executable] probes the candidates of [common_paths] in
    their order, each as [path --version] under a budget of five seconds.
    It returns the first candidate whose probe exits with status zero,
    having probed none after it; when every candidate exits with another
    status or raises, it has probed all of them and returns [None].  The
    outcomes it goes by are those the tool gave. *)
Theorem find_gh_executable_first_success (w : World) (s : State) :
  genuine w (trace s) ->
  ((exists p before after fails out err,
       common_paths = before ++ p :: after /\
       List.length fails = List.length before /\
       Forall (fun o => succeeded o = false) fails /\
       find_gh_executable w s
       = (Ret (Some p),
          record s (map probed (combine before fails)
                    ++ [probed (p, Completed 0 out err)])))
   \/ (exists fails,
       List.length fails = List.length common_paths /\
       Forall (fun o => succeeded o = false) fails /\
       find_gh_executable w s
       = (Ret None, record s (map probed (combine common_paths fails)))))
  /\ (forall p o, probed (p, o)
                  = ERun {| argv := [p; "--version"]; timeout := 5; shell := false |} o)
  /\ genuine w (trace (snd (find_gh_executable w s))).
Proof.
  intros Hg. split; [|split].
  - unfold find_gh_executable.
    destruct (probe_spec w common_paths s) as [[p [evs [Hhit Heq]]]|[evs [Hmiss Heq]]].
    + left. destruct Hhit as (before & after & fails & out & err & Hp & Hl & Hf & He).
      exists p, before, after, fails, out, err. subst evs. auto.
    + right. destruct Hmiss as (fails & Hl & Hf & He).
      exists fails. subst evs. auto.
  - intros p o. reflexivity.
  - now apply find_gh_executable_genuine.
Qed.

Lemma find_gh_executable_first_success_witness :
  genuine w_created (trace initial)
  /\ fst (find_gh_executable w_created initial) = Ret (Some "/usr/local/bin/gh")
  /\ genuine w_created (trace (snd (find_gh_executable w_created initial))).
Proof.
  split; [constructor|]. split; [reflexivity|].
  apply (find_gh_executable_first_success w_created initial). constructor.
Defined.

(** ** Text *)

Lemma lower_app (a b : string) : lower (a ++ b) = (lower a ++ lower b)%string.
Proof. induction a as [|c r IH]; simpl; [reflexivity|]. now rewrite IH. Qed.

Lemma lower_split (e a b : string) :
  lower e = (a ++ b)%string ->
  exists a' b', e = (a' ++ b')%string /\ lower a' = a /\ lower b' = b.
Proof.
  revert e. induction a as [|c r IH]; intros e H.
  - exists "", e. auto.
  - destruct e as [|c' e']; simpl in H; [discriminate|].
    injection H as Hc Hr. destruct (IH e' Hr) as (a' & b' & He & Ha & Hb).
    exists (String c' a'), b'. simpl. subst. auto.
Qed.

Lemma prefix_app (n h : string) :
  String.prefix n h = true <-> exists post, h = (n ++ post)%string.
Proof.
  revert h. induction n as [|c r IH]; intros [|c' h']; simpl.
  - split; [intros _; now exists ""|reflexivity].
  - split; [intros _; now exists (String c' h')|reflexivity].
  - split; [discriminate|intros [post H]; discriminate].
  - destruct (ascii_dec c c') as [->|Hne].
    + rewrite IH. split; intros [post H]; exists post.
      * now rewrite H.
      * now injection H.
    + split; [discriminate|]. intros [post H]. injection H as Hc _.
      now elim Hne.
Qed.

Lemma contains_app (n h : string) :
  contains n h = true <-> exists pre post, h = (pre ++ n ++ post)%string.
Proof.
  induction h as [|c r IH]; cbn [contains]; rewrite orb_true_iff, prefix_app.
  - split.
    + intros [[post H]|H]; [|discriminate]. now exists "", post.
    + intros [pre [post H]]. left. destruct pre; [now exists post|discriminate].
  - rewrite IH. split.
    + intros [[post H]|[pre [post H]]].
      * now exists "", post.
      * exists (String c pre), post. simpl. now rewrite H.
    + intros [pre [post H]]. destruct pre as [|c' pre'].
      * left. now exists post.
      * right. injection H as _ H. now exists pre', post.
Qed.

(** The test of the label loop decides whether the diagnostic mentions the
    phrase, the case of letters ignored. *)
Lemma contains_lower_mentions (needle hay : string) :
  contains (lower needle) (lower hay) = true <-> mentions needle hay.
Proof.
  rewrite contains_app. unfold mentions. split.
  - intros (pre & post & H).
    apply lower_split in H. destruct H as (pre' & rest & He & Hpre & Hrest).
    apply lower_split in Hrest. destruct Hrest as (mid & post' & Hr & Hmid & Hpost).
    exists pre', mid, post'. subst. auto.
  - intros (pre & mid & post & He & Hmid).
    exists (lower pre), (lower post). subst hay.
    now rewrite !lower_app, Hmid.
Qed.

Lemma already_exists_mentions (stderr : string) :
  contains "already exists" (lower stderr) = true
  <-> mentions "already exists" stderr.
Proof. apply (contains_lower_mentions "already exists"). Qed.

(** ** The label loop *)

Lemma label_bucket_total (o : Outcome) : exists b, label_bucket o b.
Proof.
  destruct o as [rc out err|e]; [|exists OtherFailure; constructor].
  destruct (Z.eq_dec rc 0) as [->|Hrc]; [exists Success; constructor|].
  destruct (contains "already exists" (lower err)) eqn:Hc.
  - exists AlreadyExists. constructor; [exact Hrc|].
    now apply already_exists_mentions.
  - exists OtherFailure. constructor; [exact Hrc|].
    intros Hm. apply already_exists_mentions in Hm. congruence.
Qed.

Lemma label_bucket_functional (o : Outcome) (b b' : Bucket) :
  label_bucket o b -> label_bucket o b' -> b = b'.
Proof.
  intros H H'. destruct H; inversion H'; subst; try reflexivity;
    congruence || contradiction.
Qed.

Lemma label_report_bucket (l : Label) (o : Outcome) (b : Bucket) :
  label_bucket o b ->
  tagged (bucket_tags b) (label_report l o) = true
  /\ (forall b', tagged (bucket_tags b') (label_report l o) = true -> b' = b)
  /\ (b = Success ->
      label_report l o = ("[SUCCESS] Label '" ++ name l ++ "' created/updated")%string)
  /\ (b = AlreadyExists ->
      label_report l o = ("[INFO] Label '" ++ name l ++ "' already exists")%string).
Proof.
  intros H. destruct H as [out err|rc out err Hrc Hm|rc out err Hrc Hm|e];
    unfold label_report.
  - repeat split; try discriminate; try reflexivity.
    intros [| |]; simpl; intros; congruence.
  - apply Z.eqb_neq in Hrc. rewrite Hrc.
    apply already_exists_mentions in Hm. rewrite Hm.
    repeat split; try discriminate; try reflexivity.
    intros [| |]; simpl; intros; congruence.
  - apply Z.eqb_neq in Hrc. rewrite Hrc.
    destruct (contains "already exists" (lower err)) eqn:Hc;
      [elim Hm; now apply already_exists_mentions|].
    repeat split; try discriminate; try reflexivity.
    intros [| |]; simpl; intros; congruence.
  - destruct e as [msg|msg];
      (repeat split; try discriminate; try reflexivity;
       intros [| |]; simpl; intros; congruence).
Qed.

(** C4. One turn of the label loop announces the label, calls the tool and
    prints one status line, and comes back whatever the outcome.  The
    outcome falls into exactly one of three buckets: success on exit status
    zero, already-exists on another status with a diagnostic that mentions
    "already exists" in any case of letters, and failure on every other
    status and on every exception, the timeout among them.  The status line
    opens with a tag of the bucket and with no tag of another one.  The loop
    calls the tool once for every record of the table, in table order. *)
Theorem label_loop_three_buckets
    (w : World) (gh : string) (l : Label) (s : State) (b : Bucket) :
  let announce := ("Creating label '" ++ name l ++ "'...")%string in
  let o := tool w (trace s ++ [EPrint announce]) (label_inv gh l) in
  label_bucket o b ->
  (exists line,
      create_label w gh l s
      = (Ret tt, record s [EPrint announce; ERun (label_inv gh l) o; EPrint line])
      /\ tagged (bucket_tags b) line = true
      /\ (forall b', tagged (bucket_tags b') line = true -> b' = b)
      /\ (b = Success ->
          line = ("[SUCCESS] Label '" ++ name l ++ "' created/updated")%string)
      /\ (b = AlreadyExists ->
          line = ("[INFO] Label '" ++ name l ++ "' already exists")%string))
  /\ (forall o', exists b',
        label_bucket o' b' /\ forall b'', label_bucket o' b'' -> b'' = b')
  /\ (forall s', exists os,
        List.length os = List.length (var_REQUIRED_LABELS (globals s')) /\
        create_github_labels w gh s'
        = (Ret tt, record s' (labels_part gh (var_REQUIRED_LABELS (globals s')) os)) /\
        invocations (labels_part gh (var_REQUIRED_LABELS (globals s')) os)
        = map (label_inv gh) (var_REQUIRED_LABELS (globals s'))).
Proof.
  intros announce o Hb. split; [|split].
  - exists (label_report l o). split; [apply create_label_spec|].
    now apply label_report_bucket.
  - intros o'. destruct (label_bucket_total o') as [b' Hb'].
    exists b'. split; [exact Hb'|].
    intros b'' Hb''. exact (label_bucket_functional o' b'' b' Hb'' Hb').
  - intros s'. destruct (create_github_labels_steps w gh s') as [os [Hlen Hrun]].
    exists os. split; [exact Hlen|]. split; [exact Hrun|].
    unfold invocations. rewrite runs_labels_part. now apply label_invocations.
Qed.

Lemma label_loop_three_buckets_witness :
  let l := {| name := "backend"; description := "Backend development tasks";
              color := "0052cc" |} in
  let o := Completed 1 "" "label with name 'x' Already Exists; use --force" in
  label_bucket o AlreadyExists
  /\ exists line,
       create_label w_mixed "gh" l initial
       = (Ret tt,
          record initial
            [EPrint "Creating label 'backend'..."; ERun (label_inv "gh" l) o;
             EPrint line])
       /\ line = "[INFO] Label 'backend' already exists".
Proof.
  intros l o.
  assert (Hb : label_bucket o AlreadyExists).
  { apply bucket_exists; [discriminate|].
    exists "label with name 'x' ", "Already Exists", "; use --force".
    split; reflexivity. }
  split; [exact Hb|].
  destruct (label_loop_three_buckets w_mixed "gh" l initial AlreadyExists Hb)
    as [[line [Hrun [_ [_ [_ Hline]]]]] _].
  exists line. split; [exact Hrun|]. now apply Hline.
Defined.

(** ** The issue loop *)


(** ** Reading a whole run *)

Lemma invocations_app (a b : list Event) :
  invocations (a ++ b) = invocations a ++ invocations b.
Proof. unfold invocations. now rewrite runs_app, map_app. Qed.

Lemma mutating_calls_app (a b : list Event) :
  mutating_calls (a ++ b) = mutating_calls a ++ mutating_calls b.
Proof. unfold mutating_calls. now rewrite invocations_app, filter_app. Qed.

Lemma auth_outcomes_app (a b : list Event) :
  auth_outcomes (a ++ b) = auth_outcomes a ++ auth_outcomes b.
Proof. unfold auth_outcomes. now rewrite runs_app, filter_app, map_app. Qed.

Lemma successful_probes_app (a b : list Event) :
  successful_probes (a ++ b) = successful_probes a ++ successful_probes b.
Proof. unfold successful_probes. now rewrite runs_app, filter_app. Qed.

Lemma invocations_prints (lines : list string) : invocations (map EPrint lines) = [].
Proof. unfold invocations. now rewrite runs_prints. Qed.

Lemma mutating_calls_prints (lines : list string) :
  mutating_calls (map EPrint lines) = [].
Proof. unfold mutating_calls. now rewrite invocations_prints. Qed.

Lemma auth_outcomes_prints (lines : list string) :
  auth_outcomes (map EPrint lines) = [].
Proof. unfold auth_outcomes. now rewrite runs_prints. Qed.

Lemma successful_probes_prints (lines : list string) :
  successful_probes (map EPrint lines) = [].
Proof. unfold successful_probes. now rewrite runs_prints. Qed.

(** The probes of the locator. *)

Lemma invocations_probed (l : list (string * Outcome)) :
  invocations (map probed l) = map (fun po => probe_inv (fst po)) l.
Proof. unfold invocations. now rewrite runs_probed, map_map. Qed.

Lemma mutating_calls_probed (l : list (string * Outcome)) :
  mutating_calls (map probed l) = [].
Proof.
  unfold mutating_calls. rewrite invocations_probed.
  now apply filter_map_none.
Qed.

Lemma auth_outcomes_probed (l : list (string * Outcome)) :
  auth_outcomes (map probed l) = [].
Proof.
  unfold auth_outcomes. rewrite runs_probed.
  now rewrite filter_map_none.
Qed.

Lemma successful_probes_failed (paths : list string) (fails : list Outcome) :
  Forall (fun o => succeeded o = false) fails ->
  successful_probes (map probed (combine paths fails)) = [].
Proof.
  intros Hf. unfold successful_probes. rewrite runs_probed.
  revert paths. induction Hf as [|o r Ho _ IH]; intros [|p paths]; simpl;
    try reflexivity.
  rewrite Ho. apply IH.
Qed.

Lemma probed_only (l : list (string * Outcome)) : probes_only (map probed l).
Proof.
  constructor.
  - apply answers_probed.
  - apply printed_probed.
  - apply mutating_calls_probed.
  - apply auth_outcomes_probed.
  - rewrite invocations_probed. apply Forall_map. now apply Forall_forall.
  - rewrite invocations_probed. apply forallb_forall. intros inv Hin.
    apply in_map_iff in Hin. destruct Hin as [po [<- _]]. reflexivity.
Qed.

Lemma probes_hit_only (paths : list string) (p : string) (ps : list Event) :
  probes_hit paths p ps -> probes_only ps /\ successful_probes ps <> [].
Proof.
  intros (before & after & fails & out & err & _ & _ & Hf & ->).
  split.
  - change [probed (p, Completed 0 out err)]
      with (map probed [(p, Completed 0 out err)]).
    rewrite <- map_app. apply probed_only.
  - rewrite successful_probes_app, successful_probes_failed by exact Hf.
    discriminate.
Qed.

Lemma probes_miss_only (paths : list string) (ps : list Event) :
  probes_miss paths ps -> probes_only ps /\ successful_probes ps = [].
Proof.
  intros (fails & _ & Hf & ->). split.
  - apply probed_only.
  - now apply successful_probes_failed.
Qed.

(** The two loops. *)

Lemma invocations_labels_part (gh : string) (ls : list Label) (os : list Outcome) :
  List.length os = List.length ls ->
  invocations (labels_part gh ls os) = map (label_inv gh) ls.
Proof.
  intros H. unfold invocations. rewrite runs_labels_part.
  now apply label_invocations.
Qed.

Lemma invocations_issues_part (gh : string) (tgs : list TaskGroup) (os : list Outcome) :
  List.length os = List.length tgs ->
  invocations (issues_part gh tgs os) = map (issue_inv gh) tgs.
Proof.
  intros H. unfold invocations. rewrite runs_issues_part.
  now apply issue_invocations.
Qed.

Lemma mutating_calls_labels_part (gh : string) (ls : list Label) (os : list Outcome) :
  List.length os = List.length ls ->
  mutating_calls (labels_part gh ls os) = map (label_inv gh) ls.
Proof.
  intros H. unfold mutating_calls. rewrite invocations_labels_part by exact H.
  now apply filter_map_all.
Qed.

Lemma mutating_calls_issues_part (gh : string) (tgs : list TaskGroup) (os : list Outcome) :
  List.length os = List.length tgs ->
  mutating_calls (issues_part gh tgs os) = map (issue_inv gh) tgs.
Proof.
  intros H. unfold mutating_calls. rewrite invocations_issues_part by exact H.
  now apply filter_map_all.
Qed.

Lemma auth_outcomes_labels_part (gh : string) (ls : list Label) (os : list Outcome) :
  auth_outcomes (labels_part gh ls os) = [].
Proof.
  unfold auth_outcomes. rewrite runs_labels_part.
  now rewrite filter_map_none.
Qed.

Lemma auth_outcomes_issues_part (gh : string) (tgs : list TaskGroup) (os : list Outcome) :
  auth_outcomes (issues_part gh tgs os) = [].
Proof.
  unfold auth_outcomes. rewrite runs_issues_part.
  now rewrite filter_map_none.
Qed.

Lemma successful_probes_labels_part (gh : string) (ls : list Label) (os : list Outcome) :
  successful_probes (labels_part gh ls os) = [].
Proof.
  unfold successful_probes. rewrite runs_labels_part.
  now rewrite filter_map_none.
Qed.

Lemma successful_probes_issues_part (gh : string) (tgs : list TaskGroup) (os : list Outcome) :
  successful_probes (issues_part gh tgs os) = [].
Proof.
  unfold successful_probes. rewrite runs_issues_part.
  now rewrite filter_map_none.
Qed.

Lemma invocations_cons_run inv o tr :
  invocations (ERun inv o :: tr) = inv :: invocations tr.
Proof. reflexivity. Qed.
Lemma invocations_cons_print line tr :
  invocations (EPrint line :: tr) = invocations tr.
Proof. reflexivity. Qed.
Lemma invocations_cons_input p a tr :
  invocations (EInput p a :: tr) = invocations tr.
Proof. reflexivity. Qed.

Lemma mutating_calls_cons_run inv o tr :
  mutating_calls (ERun inv o :: tr)
  = (if is_mutating inv then [inv] else []) ++ mutating_calls tr.
Proof.
  unfold mutating_calls. rewrite invocations_cons_run. simpl.
  now destruct (is_mutating inv).
Qed.
Lemma mutating_calls_cons_print line tr :
  mutating_calls (EPrint line :: tr) = mutating_calls tr.
Proof. reflexivity. Qed.
Lemma mutating_calls_cons_input p a tr :
  mutating_calls (EInput p a :: tr) = mutating_calls tr.
Proof. reflexivity. Qed.

Lemma auth_outcomes_cons_run inv o tr :
  auth_outcomes (ERun inv o :: tr)
  = (if is_auth_check inv then [o] else []) ++ auth_outcomes tr.
Proof.
  unfold auth_outcomes. rewrite runs_cons_run. simpl.
  now destruct (is_auth_check inv).
Qed.
Lemma auth_outcomes_cons_print line tr :
  auth_outcomes (EPrint line :: tr) = auth_outcomes tr.
Proof. reflexivity. Qed.
Lemma auth_outcomes_cons_input p a tr :
  auth_outcomes (EInput p a :: tr) = auth_outcomes tr.
Proof. reflexivity. Qed.

Lemma successful_probes_cons_run inv o tr :
  successful_probes (ERun inv o :: tr)
  = (if (is_probe inv && succeeded o)%bool then [(inv, o)] else [])
    ++ successful_probes tr.
Proof.
  unfold successful_probes. rewrite runs_cons_run. simpl.
  now destruct (is_probe inv && succeeded o)%bool.
Qed.
Lemma successful_probes_cons_print line tr :
  successful_probes (EPrint line :: tr) = successful_probes tr.
Proof. reflexivity. Qed.
Lemma successful_probes_cons_input p a tr :
  successful_probes (EInput p a :: tr) = successful_probes tr.
Proof. reflexivity. Qed.

Lemma is_auth_check_auth_inv (gh : string) : is_auth_check (auth_inv gh) = true.
Proof. reflexivity. Qed.
Lemma is_mutating_auth_inv (gh : string) : is_mutating (auth_inv gh) = false.
Proof. reflexivity. Qed.
Lemma is_probe_auth_inv (gh : string) : is_probe (auth_inv gh) = false.
Proof. reflexivity. Qed.

Create Rewrite HintDb reading.

#[local] Hint Rewrite
  runs_app printed_app answers_app
  invocations_app mutating_calls_app auth_outcomes_app successful_probes_app
  runs_prints printed_prints answers_prints
  invocations_prints mutating_calls_prints auth_outcomes_prints
  successful_probes_prints
  runs_cons_run runs_cons_print runs_cons_input
  answers_cons_run answers_cons_print answers_cons_input
  printed_cons_run printed_cons_print printed_cons_input
  invocations_cons_run invocations_cons_print invocations_cons_input
  mutating_calls_cons_run mutating_calls_cons_print mutating_calls_cons_input
  auth_outcomes_cons_run auth_outcomes_cons_print auth_outcomes_cons_input
  successful_probes_cons_run successful_probes_cons_print
  successful_probes_cons_input
  answers_labels_part answers_issues_part
  auth_outcomes_labels_part auth_outcomes_issues_part
  successful_probes_labels_part successful_probes_issues_part
  is_auth_check_auth_inv is_mutating_auth_inv is_probe_auth_inv
  app_nil_l app_nil_r
  : reading.

(** The parts of a run are opened up and every reading of the trace is
    pushed down to them. *)
Ltac read_trace :=
  unfold up_to_auth, banner, auth_report, missing_notice, vanished_notice,
    manual_events in *;
  repeat match goal with
         | H : probes_hit _ _ ?ps |- _ =>
             let Ho := fresh "Honly" in
             let Hs := fresh "Hsome" in
             destruct (probes_hit_only _ _ _ H) as [Ho Hs];
             destruct Ho; clear H
         | H : probes_miss _ ?ps |- _ =>
             let Ho := fresh "Honly" in
             let Hs := fresh "Hnone" in
             destruct (probes_miss_only _ _ H) as [Ho Hs];
             destruct Ho; clear H
         end;
  repeat first
    [ progress autorewrite with reading in *
    | rewrite mutating_calls_labels_part in * by assumption
    | rewrite mutating_calls_issues_part in * by assumption
    | rewrite invocations_labels_part in * by assumption
    | rewrite invocations_issues_part in * by assumption
    | match goal with
      | H : answers ?ps = [] |- _ => rewrite H in *
      | H : printed ?ps = [] |- _ => rewrite H in *
      | H : mutating_calls ?ps = [] |- _ => rewrite H in *
      | H : auth_outcomes ?ps = [] |- _ => rewrite H in *
      | H : successful_probes ?ps = [] |- _ => rewrite H in *
      end ].

(** ** The authentication gate *)

(** C2. In every run in which the authentication check exits with a
    non-zero status or raises, the check is the last call of the run: two
    diagnostic lines follow it, the first tagged as an error, the process
    leaves with status 1, and no label or issue has been created. *)
Theorem auth_failure_stops_run (w : World) (o : Outcome) :
  let r := fst (run w) in
  let tr := trace (snd (run w)) in
  In o (auth_outcomes tr) ->
  succeeded o = false ->
  exit_code r = 1
  /\ mutating_calls tr = []
  /\ exists before gh d1 d2,
       tr = before ++ [ERun (auth_inv gh) o; EPrint d1; EPrint d2]
       /\ String.prefix "[ERROR]" d1 = true
       /\ mutating_calls before = [].
Proof.
  intros r tr. subst r tr.
  generalize (run_shape_total w).
  generalize (fst (run w)) (trace (snd (run w))). intros r tr Hshape.
  destruct Hshape; intros Hin Hfail.
  - exfalso. read_trace. exact Hin.
  - assert (o0 = o) as ->.
    { read_trace. simpl in Hin. tauto. }
    split; [reflexivity|]. split.
    + read_trace. reflexivity.
    + destruct o as [rc out err|e].
      * simpl in Hfail. exists (map EPrint banner_lines ++ ps), gh.
        unfold up_to_auth, auth_report, auth_lines, banner. rewrite Hfail. simpl map.
        eexists _, _. split; [now rewrite <- app_assoc|].
        split; [reflexivity|]. read_trace. reflexivity.
      * exists (map EPrint banner_lines ++ ps), gh.
        unfold up_to_auth, auth_report, auth_lines, banner. simpl map.
        eexists _, _. split; [now rewrite <- app_assoc|].
        split; [reflexivity|]. read_trace. reflexivity.
  - exfalso. read_trace. simpl in Hin. destruct Hin as [<-|[]]. congruence.
  - exfalso. read_trace. simpl in Hin. destruct Hin as [<-|[]]. congruence.
  - exfalso. read_trace. simpl in Hin. destruct Hin as [<-|[]]. congruence.
  - exfalso. read_trace. simpl in Hin. destruct Hin as [<-|[]]. congruence.
Qed.

Lemma after_prompt_app (a b : list Event) (prompt : string) (answer : option string) :
  answers a = [] -> after_prompt (a ++ EInput prompt answer :: b) = b.
Proof.
  induction a as [|[line|inv o|p x] r IH]; simpl; intros H;
    try discriminate; auto.
Qed.

Lemma prompt_comes_first_app (a b : list Event) :
  answers a = [] -> mutating_calls a = [] ->
  prompt_comes_first (a ++ b) = prompt_comes_first b.
Proof.
  induction a as [|[line|inv o|p x] r IH]; simpl; intros Ha Hm;
    try discriminate; auto.
  rewrite mutating_calls_cons_run in Hm.
  destruct (is_mutating inv); [discriminate|]. simpl. now apply IH.
Qed.

Lemma prompt_comes_first_quiet (a : list Event) :
  mutating_calls a = [] -> prompt_comes_first a = true.
Proof.
  induction a as [|[line|inv o|p x] r IH]; simpl; intros Hm; auto.
  rewrite mutating_calls_cons_run in Hm.
  destruct (is_mutating inv); [discriminate|]. simpl. now apply IH.
Qed.

Lemma up_to_auth_quiet (ps : list Event) (gh : string) (o : Outcome) :
  probes_only ps ->
  answers (up_to_auth ps gh o) = [] /\ mutating_calls (up_to_auth ps gh o) = [].
Proof.
  intros []. split; read_trace; reflexivity.
Qed.

(** A reading of the trace that cannot be right for the run at hand. *)
Ltac unreadable :=
  exfalso; read_trace; simpl in *;
  repeat match goal with
         | H : _ \/ _ |- _ => destruct H
         | H : False |- _ => destruct H
         | H : _ :: _ = _ :: _ |- _ => injection H as H; try subst
         | H : Some _ = Some _ |- _ => injection H as H; try subst
         end;
  try discriminate; try congruence;
  match goal with
  | Hs : successful_probes ?ps <> [] |- _ =>
      destruct (successful_probes ps); [congruence|discriminate]
  end.

Ltac by_shape w :=
  generalize (run_shape_total w);
  generalize (fst (run w)) (trace (snd (run w)));
  let r := fresh "r" in
  let tr := fresh "tr" in
  let Hshape := fresh "Hshape" in
  intros r tr Hshape;
  destruct Hshape as
    [ ps Hmiss
    | gh ps o Hhit Hfail
    | gh ps o Hhit Hok Hin
    | gh ps o answer Hhit Hok Hin Hno
    | gh ps o answer ps2 Hhit Hok Hin Hyes Hmiss2
    | gh ps o answer gh2 ps2 los ios Hhit Hok Hin Hyes Hhit2 Hlos Hios ].

Lemma prompt_comes_first_after_auth
    (ps : list Event) (gh p : string) (o : Outcome) (a : option string)
    (rest : list Event) :
  probes_hit common_paths gh ps ->
  prompt_comes_first (up_to_auth ps gh o ++ EInput p a :: rest) = true.
Proof.
  intros Hhit. apply probes_hit_only in Hhit. destruct Hhit as [Honly _].
  destruct (up_to_auth_quiet ps gh o Honly) as [Hqa Hqm].
  now rewrite prompt_comes_first_app.
Qed.

(** ** Exit status and the place of the prompt *)

(** C3. A run that reaches the prompt and gets an answer leaves with status
    0, whether the answer is a yes, after which the run completes, or
    anything else, after which it prints the cancellation.  A run in which no
    probe succeeds, and a run in which the authentication check fails, leave
    with status 1.  In every run the prompt is read before the first call
    that creates a label or an issue. *)
Theorem exit_status_and_prompt_order (w : World) :
  let r := fst (run w) in
  let tr := trace (snd (run w)) in
  prompt_comes_first tr = true
  /\ (forall a, answers tr = [Some a] -> accepts a = true ->
        r = Ret tt /\ exit_code r = 0 /\ last (printed tr) "" = done_line)
  /\ (forall a, answers tr = [Some a] -> accepts a = false ->
        r = Ret tt /\ exit_code r = 0 /\ last (printed tr) "" = "Cancelled.")
  /\ (successful_probes tr = [] -> r = Exit 1 /\ exit_code r = 1)
  /\ (forall o, In o (auth_outcomes tr) -> succeeded o = false ->
        r = Exit 1 /\ exit_code r = 1).
Proof.
  intros r tr. subst r tr. by_shape w;
    (split; [|split; [intros a Ha Hacc|split; [intros a Ha Hacc|split;
       [intros Hnone|intros o' Hin' Hfail']]]]);
    try (apply prompt_comes_first_after_auth; assumption);
    try (split; [reflexivity|split; reflexivity]);
    try (split; reflexivity).
  all: try unreadable.
  - apply prompt_comes_first_quiet. read_trace. reflexivity.
  - apply prompt_comes_first_quiet.
    apply probes_hit_only in Hhit. destruct Hhit as [Honly _].
    now apply up_to_auth_quiet.
  - split; [reflexivity|]. split; [reflexivity|].
    rewrite printed_app, printed_cons_input, printed_cons_print.
    change (printed []) with (@nil string). now rewrite last_last.
  - split; [reflexivity|]. split; [reflexivity|].
    rewrite printed_app, printed_cons_input, !printed_app.
    rewrite !app_assoc. apply last_last.
  - split; [reflexivity|]. split; [reflexivity|].
    rewrite printed_app, printed_cons_input, printed_app, printed_cons_print.
    rewrite !printed_app.
    change (printed [EPrint done_line]) with [done_line].
    rewrite app_comm_cons, !app_assoc. apply last_last.
Qed.

Lemma after_prompt_after_auth
    (ps : list Event) (gh p : string) (o : Outcome) (a : option string)
    (rest : list Event) :
  probes_hit common_paths gh ps ->
  after_prompt (up_to_auth ps gh o ++ EInput p a :: rest) = rest.
Proof.
  intros Hhit. apply probes_hit_only in Hhit. destruct Hhit as [Honly _].
  destruct (up_to_auth_quiet ps gh o Honly) as [Hqa Hqm].
  now apply after_prompt_app.
Qed.

(** ** The second probe *)

(** C10. When the user has accepted and no probe after the prompt succeeds,
    the authentication check had succeeded, the run prints the notice, the
    manual fallback and the completion line, creates nothing, and leaves
    with status 0. *)
Theorem second_probe_failure_exits_zero (w : World) (a : string) :
  let r := fst (run w) in
  let tr := trace (snd (run w)) in
  answers tr = [Some a] ->
  accepts a = true ->
  successful_probes (after_prompt tr) = [] ->
  r = Ret tt
  /\ exit_code r = 0
  /\ printed (after_prompt tr)
     = vanished_lines ++ manual_lines REQUIRED_LABELS TASK_GROUPS ++ [done_line]
  /\ mutating_calls tr = []
  /\ exists o, auth_outcomes tr = [o] /\ succeeded o = true.
Proof.
  intros r tr. subst r tr. by_shape w; intros Ha Hacc Hnone;
    try rewrite after_prompt_after_auth in Hnone by assumption;
    try solve [unreadable].
  split; [reflexivity|]. split; [reflexivity|]. split; [|split].
  - rewrite after_prompt_after_auth by assumption. read_trace. reflexivity.
  - read_trace. reflexivity.
  - exists o. split; [|exact Hok]. read_trace. reflexivity.
Qed.

Lemma second_probe_failure_exits_zero_witness :
  let tr := trace (snd (run w_vanished)) in
  answers tr = [Some "y"]
  /\ accepts "y" = true
  /\ successful_probes (after_prompt tr) = []
  /\ fst (run w_vanished) = Ret tt
  /\ exit_code (fst (run w_vanished)) = 0.
Proof.
  assert (H1 : answers (trace (snd (run w_vanished))) = [Some "y"])
    by (vm_compute; reflexivity).
  assert (H2 : accepts "y" = true) by reflexivity.
  assert (H3 : successful_probes (after_prompt (trace (snd (run w_vanished)))) = [])
    by (vm_compute; reflexivity).
  destruct (second_probe_failure_exits_zero w_vanished "y" H1 H2 H3)
    as [Hr [Hc _]].
  repeat split; assumption.
Defined.

(** ** The manual fallback *)

Lemma manual_lines_complete (ls : list Label) (tgs : list TaskGroup) :
  (forall l, In l ls -> In (manual_label_line l) (manual_lines ls tgs))
  /\ (forall tg, In tg tgs ->
        exists i, incl (manual_issue_lines (i, tg)) (manual_lines ls tgs)).
Proof.
  unfold manual_lines. split.
  - intros l Hl. apply in_or_app. right. apply in_or_app. left. now apply in_map.
  - intros tg Htg.
    assert (Hi : exists i, In (i, tg) (combine (seq 1 (List.length tgs)) tgs)).
    { generalize 1%nat. induction tgs as [|x r IH]; intros i; [contradiction|].
      destruct Htg as [->|Htg].
      - exists i. now left.
      - destruct (IH Htg (S i)) as [j Hj]. exists j. now right. }
    destruct Hi as [i Hi]. exists i. intros line Hline.
    apply in_or_app. right. apply in_or_app. right. apply in_or_app. right.
    apply in_flat_map. now exists (i, tg).
Qed.

(** C1, as the script has it.  When no probe of the run succeeds, and when
    the user has accepted and no probe after the prompt succeeds, the run
    prints the manual fallback, every label record and every issue record
    with title, labels and body, and creates nothing.  When the user answers
    with anything but a yes, the run prints the banner, the authentication
    line and the cancellation, and nothing else: no manual fallback; it
    creates nothing either. *)
Theorem manual_fallback_when_tool_missing (w : World) :
  let tr := trace (snd (run w)) in
  (successful_probes tr = [] ->
     printed tr = banner_lines ++ missing_lines
                  ++ manual_lines REQUIRED_LABELS TASK_GROUPS
     /\ mutating_calls tr = [])
  /\ (forall a, answers tr = [Some a] -> accepts a = true ->
        successful_probes (after_prompt tr) = [] ->
        printed tr = banner_lines ++ ["[SUCCESS] GitHub CLI authenticated"]
                     ++ vanished_lines
                     ++ manual_lines REQUIRED_LABELS TASK_GROUPS ++ [done_line]
        /\ mutating_calls tr = [])
  /\ (forall a, answers tr = [Some a] -> accepts a = false ->
        printed tr = banner_lines
                     ++ ["[SUCCESS] GitHub CLI authenticated"; "Cancelled."]
        /\ mutating_calls tr = [])
  /\ (forall l, In l REQUIRED_LABELS ->
        In (manual_label_line l) (manual_lines REQUIRED_LABELS TASK_GROUPS))
  /\ (forall tg, In tg TASK_GROUPS ->
        exists i, incl (manual_issue_lines (i, tg))
                       (manual_lines REQUIRED_LABELS TASK_GROUPS)).
Proof.
  intros tr. subst tr.
  assert (Hauth : forall o, succeeded o = true ->
                    auth_lines o = ["[SUCCESS] GitHub CLI authenticated"]).
  { intros [rc out err|e] H; [|discriminate]. simpl in *. now rewrite H. }
  split; [|split; [|split; [|apply manual_lines_complete]]].
  - by_shape w; intros Hnone; try solve [unreadable].
    split; read_trace; reflexivity.
  - by_shape w; intros a Ha Hacc Hnone;
      try rewrite after_prompt_after_auth in Hnone by assumption;
      try solve [unreadable].
    split; read_trace; [|reflexivity]. now rewrite (Hauth o Hok).
  - by_shape w; intros a Ha Hacc; try solve [unreadable].
    split; read_trace; [|reflexivity]. now rewrite (Hauth o Hok).
Qed.

Lemma manual_fallback_when_tool_missing_witness :
  successful_probes (trace (snd (run w_missing))) = []
  /\ printed (trace (snd (run w_missing)))
     = banner_lines ++ missing_lines ++ manual_lines REQUIRED_LABELS TASK_GROUPS
  /\ answers (trace (snd (run w_decline))) = [Some "n"]
  /\ accepts "n" = false
  /\ printed (trace (snd (run w_decline)))
     = banner_lines ++ ["[SUCCESS] GitHub CLI authenticated"; "Cancelled."]
  /\ answers (trace (snd (run w_vanished))) = [Some "y"]
  /\ accepts "y" = true
  /\ successful_probes (after_prompt (trace (snd (run w_vanished)))) = []
  /\ mutating_calls (trace (snd (run w_vanished))) = [].
Proof.
  assert (H1 : successful_probes (trace (snd (run w_missing))) = [])
    by (vm_compute; reflexivity).
  assert (H2 : answers (trace (snd (run w_decline))) = [Some "n"])
    by (vm_compute; reflexivity).
  assert (H3 : accepts "n" = false) by reflexivity.
  assert (H4 : answers (trace (snd (run w_vanished))) = [Some "y"])
    by (vm_compute; reflexivity).
  assert (H5 : accepts "y" = true) by reflexivity.
  assert (H6 : successful_probes (after_prompt (trace (snd (run w_vanished)))) = [])
    by (vm_compute; reflexivity).
  destruct (manual_fallback_when_tool_missing w_missing) as [Hm _].
  destruct (manual_fallback_when_tool_missing w_decline) as [_ [_ [Hd _]]].
  destruct (manual_fallback_when_tool_missing w_vanished) as [_ [Hv _]].
  destruct (Hm H1) as [Hm1 _]. destruct (Hd "n" H2 H3) as [Hd1 _].
  destruct (Hv "y" H4 H5 H6) as [_ Hv2].
  repeat split; assumption.
Defined.

(** C1, as it is worded, fails: a user who answers [n] is told that the run
    was cancelled, and the manual fallback is not printed. *)
Lemma declined_run_prints_no_manual :
  let tr := trace (snd (run w_decline)) in
  answers tr = [Some "n"]
  /\ accepts "n" = false
  /\ printed tr
     = [ "GitHub Issues Creation Script";
         "==================================================";
         "This script will create GitHub issues based on the RealWorld implementation tasks.";
         "Make sure you're authenticated with GitHub CLI first: gh auth login";
         "";
         "[SUCCESS] GitHub CLI authenticated";
         "Cancelled." ]
  /\ ~ (exists before after,
          printed tr
          = before ++ manual_lines REQUIRED_LABELS TASK_GROUPS ++ after)
  /\ ~ In (manual_label_line (nth 0 REQUIRED_LABELS {| name := ""; description := ""; color := "" |}))
          (printed tr).
Proof.
  intros tr.
  assert (Hp : printed tr
     = [ "GitHub Issues Creation Script";
         "==================================================";
         "This script will create GitHub issues based on the RealWorld implementation tasks.";
         "Make sure you're authenticated with GitHub CLI first: gh auth login";
         "";
         "[SUCCESS] GitHub CLI authenticated";
         "Cancelled." ]) by (vm_compute; reflexivity).
  split; [vm_compute; reflexivity|]. split; [reflexivity|]. split; [exact Hp|].
  split.
  - intros (before & after & H).
    assert (Hin : In "MANUAL ISSUE CREATION" (printed tr)).
    { rewrite H. apply in_or_app. right. apply in_or_app. left.
      right. left. reflexivity. }
    rewrite Hp in Hin. simpl in Hin.
    repeat (destruct Hin as [Hin|Hin]; [discriminate|]). exact Hin.
  - rewrite Hp. simpl. intros Hin.
    repeat (destruct Hin as [Hin|Hin]; [discriminate|]). exact Hin.
Qed.

(** ** The shape of the commands *)

Lemma Forall_shell_map {A} (f : A -> Invocation) (xs : list A) :
  (forall x, shell (f x) = false) ->
  Forall (fun inv => shell inv = false) (map f xs).
Proof. intros H. apply Forall_map. now apply Forall_forall. Qed.

Lemma forallb_map_all {A B} (p : B -> bool) (f : A -> B) (xs : list A) :
  (forall x, p (f x) = true) -> forallb p (map f xs) = true.
Proof. intros H. induction xs; simpl; [reflexivity|]. now rewrite H. Qed.

Lemma forallb_weaken {A} (p q : A -> bool) (xs : list A) :
  (forall x, p x = true -> q x = true) ->
  forallb p xs = true -> forallb q xs = true.
Proof.
  intros H. rewrite !forallb_forall. auto.
Qed.

Lemma probes_known (ps : list Event) :
  probes_only ps -> forallb known_command (invocations ps) = true.
Proof.
  intros []. apply (forallb_weaken is_probe); [|assumption].
  intros inv H. unfold known_command. now rewrite H.
Qed.

(** C9. Every call of the tool is an argument vector run without a shell.
    A run creates nothing, or it creates, through one path [gh] of the
    candidates, first every label of the table and then every issue of the
    table, in table order: a label by [gh label create name --description
    description --color color --force], an issue by [gh issue create --title
    title --body body] followed by [--label name] for each label of the
    record in the order of the record.  The other calls are the probes and
    the authentication check.  The command the issue loop builds by
    extending the list is that vector. *)
Theorem commands_are_argument_vectors (w : World) :
  let tr := trace (snd (run w)) in
  Forall (fun inv => shell inv = false) (invocations tr)
  /\ (mutating_calls tr = []
      \/ exists gh,
           In gh common_paths /\
           mutating_calls tr
           = map (fun l =>
                    {| argv := [gh; "label"; "create"; name l;
                                "--description"; description l;
                                "--color"; color l; "--force"];
                       timeout := 15; shell := false |}) REQUIRED_LABELS
             ++ map (fun tg =>
                    {| argv := [gh; "issue"; "create";
                                "--title"; title tg; "--body"; body tg]
                               ++ flat_map (fun l => ["--label"; l]) (labels tg);
                       timeout := 30; shell := false |}) TASK_GROUPS)
  /\ forallb known_command (invocations tr) = true
  /\ (forall gh tg,
        issue_cmd gh tg
        = [gh; "issue"; "create"; "--title"; title tg; "--body"; body tg]
          ++ flat_map (fun l => ["--label"; l]) (labels tg)).
Proof.
  intros tr. subst tr. split; [|split; [|split]].
  - by_shape w; read_trace;
      repeat first [ apply Forall_app; split
                   | apply Forall_cons
                   | apply Forall_nil
                   | assumption
                   | reflexivity
                   | apply Forall_shell_map; reflexivity ].
  - by_shape w; try (left; read_trace; reflexivity).
    right. exists gh2. split; [exact (probes_hit_in _ _ _ Hhit2)|].
    read_trace. reflexivity.
  - by_shape w;
      repeat match goal with
             | H : probes_hit _ _ _ |- _ =>
                 apply probes_hit_only in H; destruct H as [H _];
                 apply probes_known in H
             | H : probes_miss _ _ |- _ =>
                 apply probes_miss_only in H; destruct H as [H _];
                 apply probes_known in H
             end;
      read_trace; rewrite ?forallb_app; simpl;
      repeat match goal with
             | H : forallb known_command _ = true |- _ => rewrite H; clear H
             end;
      simpl; rewrite ?forallb_map_all by reflexivity; reflexivity.
  - intros gh tg. rewrite issue_cmd_argv. reflexivity.
Qed.

Lemma auth_failure_stops_run_witness :
  let o := Completed 1 "" "You are not logged into any GitHub hosts." in
  let tr := trace (snd (run w_logged_out)) in
  In o (auth_outcomes tr)
  /\ succeeded o = false
  /\ exit_code (fst (run w_logged_out)) = 1
  /\ mutating_calls tr = [].
Proof.
  intros o tr.
  assert (H1 : In o (auth_outcomes tr)) by (vm_compute; left; reflexivity).
  assert (H2 : succeeded o = false) by reflexivity.
  destruct (auth_failure_stops_run w_logged_out o H1 H2) as [Hc [Hm _]].
  repeat split; assumption.
Defined.

Lemma exit_status_and_prompt_order_witness :
  (answers (trace (snd (run w_created))) = [Some "Yes"] /\ accepts "Yes" = true
   /\ exit_code (fst (run w_created)) = 0)
  /\ (answers (trace (snd (run w_decline))) = [Some "n"] /\ accepts "n" = false
      /\ exit_code (fst (run w_decline)) = 0)
  /\ (successful_probes (trace (snd (run w_missing))) = []
      /\ exit_code (fst (run w_missing)) = 1)
  /\ (In (Completed 1 "" "You are not logged into any GitHub hosts.")
         (auth_outcomes (trace (snd (run w_logged_out))))
      /\ exit_code (fst (run w_logged_out)) = 1).
Proof.
  assert (H1 : answers (trace (snd (run w_created))) = [Some "Yes"])
    by (vm_compute; reflexivity).
  assert (H2 : accepts "Yes" = true) by reflexivity.
  assert (H3 : answers (trace (snd (run w_decline))) = [Some "n"])
    by (vm_compute; reflexivity).
  assert (H4 : accepts "n" = false) by reflexivity.
  assert (H5 : successful_probes (trace (snd (run w_missing))) = [])
    by (vm_compute; reflexivity).
  assert (H6 : In (Completed 1 "" "You are not logged into any GitHub hosts.")
                 (auth_outcomes (trace (snd (run w_logged_out)))))
    by (vm_compute; left; reflexivity).
  destruct (exit_status_and_prompt_order w_created) as [_ [Hyes _]].
  destruct (exit_status_and_prompt_order w_decline) as [_ [_ [Hno _]]].
  destruct (exit_status_and_prompt_order w_missing) as [_ [_ [_ [Hmiss _]]]].
  destruct (exit_status_and_prompt_order w_logged_out) as [_ [_ [_ [_ Hauth]]]].
  destruct (Hyes "Yes" H1 H2) as [_ [Hc1 _]].
  destruct (Hno "n" H3 H4) as [_ [Hc2 _]].
  destruct (Hmiss H5) as [_ Hc3].
  destruct (Hauth _ H6 eq_refl) as [_ Hc4].
  repeat split; assumption.
Defined.

(** ** The model at work *)

(** With labels that exist already, a second issue that times out and a
    third that is refused, the run still calls the tool for every label and
    every issue and reports each in turn. *)
Example mixed_run_reports_each_item :
  let tr := trace (snd (run w_mixed)) in
  fst (run w_mixed) = Ret tt
  /\ List.length (mutating_calls tr)
     = (List.length REQUIRED_LABELS + List.length TASK_GROUPS)%nat
  /\ filter (String.prefix "[INFO]") (printed tr)
     = map (fun l => ("[INFO] Label '" ++ name l ++ "' already exists")%string)
         REQUIRED_LABELS
  /\ filter (String.prefix "[ERROR]") (printed tr)
     = [ "[ERROR] Timeout creating issue: Phase 1.2: User Authentication & Profile System";
         "[ERROR] Failed to create issue: HTTP 403: forbidden" ]
  /\ List.length (filter (String.prefix "[SUCCESS] Issue") (printed tr)) = 11%nat.
Proof.
  vm_compute. repeat split.
Qed.

(** The answer is compared as typed, in lower case: a yes with a blank
    around it is a refusal. *)
Example accepts_samples :
  accepts "y" = true /\ accepts "YES" = true /\ accepts "Yes" = true
  /\ accepts "" = false /\ accepts " y" = false /\ accepts "yes " = false
  /\ accepts "no" = false.
Proof. repeat split. Qed.
